(** * Readers of letsdata-python-examples, embedded in Rocq

    The DynamoDB table-item reader
    ([DynamoDBTableItemReader.parseDynamoDBItem]), the DynamoDB streams
    record reader ([DynamoDBStreamsRecordReader.parseRecord]), the [to_map]
    udf of the Spark mapper and the read loop of the Spark reducer. *)

From Stdlib Require Import String Ascii List Bool ZArith Arith Lia.
Import ListNotations.
Open Scope string_scope.
Set Warnings "-register-all".

(** ** Python values and exceptions *)

(** The Python values that reach the handlers: [None], ints, strs, and
    dicts with str keys (a dict is its items in insertion order). *)
Inductive pyval : Type :=
| VNone : pyval
| VInt : Z -> pyval
| VStr : string -> pyval
| VDict : list (string * pyval) -> pyval.

Definition pydict := list (string * pyval).

Definition type_name (v : pyval) : string :=
  match v with
  | VNone => "NoneType"
  | VInt _ => "int"
  | VStr _ => "str"
  | VDict _ => "dict"
  end.

(** A double-quote character. *)
Definition dq : string := String (ascii_of_nat 34) EmptyString.

(** The built-in exceptions raised by the readers, with [str(ex)]. *)
Inductive exn : Type :=
| TypeError : string -> exn
| AttributeError : string -> exn
| IndexError : string -> exn.

Definition exn_message (e : exn) : string :=
  match e with
  | TypeError m | AttributeError m | IndexError m => m
  end.

(** Computations that may raise. *)
Inductive result (A : Type) : Type :=
| Ok : A -> result A
| Raise : exn -> result A.
Arguments Ok {A} _.
Arguments Raise {A} _.

Definition bind {A B} (r : result A) (f : A -> result B) : result B :=
  match r with
  | Ok a => f a
  | Raise e => Raise e
  end.

Notation "'let!' x := r 'in' k" := (bind r (fun x => k))
  (at level 200, x name, r at level 100, k at level 200).

(** [v.values()] *)
Definition py_values (v : pyval) : result (list pyval) :=
  match v with
  | VDict d => Ok (map snd d)
  | _ => Raise (AttributeError ("'" ++ type_name v ++ "' object has no attribute 'values'"))
  end.

(** [len(v)] *)
Definition py_len (v : pyval) : result nat :=
  match v with
  | VDict d => Ok (List.length d)
  | VStr s => Ok (String.length s)
  | _ => Raise (TypeError ("object of type '" ++ type_name v ++ "' has no len()"))
  end.

(** ['|' + v]: a str on the left only concatenates with a str. *)
Definition py_str_add (s : string) (v : pyval) : result pyval :=
  match v with
  | VStr t => Ok (VStr (s ++ t))
  | _ => Raise (TypeError ("can only concatenate str (not " ++ dq ++ type_name v
                           ++ dq ++ ") to str"))
  end.

(** [a += s] for a str [s] on the right. *)
Definition py_iadd_str (a : pyval) (s : string) : result pyval :=
  match a with
  | VStr t => Ok (VStr (t ++ s))
  | _ => Raise (TypeError ("unsupported operand type(s) for +=: '" ++ type_name a
                           ++ "' and 'str'"))
  end.

(** ** The documents and the parse result *)

Inductive DocumentType := DocumentType_Document.

(** [Document(documentType, documentId, recordType, partitionKey,
    documentMetadata, documentPayload)] *)
Record Document := mkDocument {
  doc_type : DocumentType;
  doc_id : pyval;
  doc_recordType : string;
  doc_partitionKey : pyval;
  doc_metadata : pydict;
  doc_payload : pyval }.

(** The eight constructor arguments of [ErrorDoc] and [SkipDoc], in order:
    document id, reason code, partition key, two mappings (always [{}] here),
    the two context-mapping slots, and the reason text. *)
Record ErrorDoc := mkErrorDoc {
  err_documentId : pyval;
  err_code : string;
  err_partitionKey : pyval;
  err_map1 : pydict;
  err_map2 : pydict;
  err_context1 : pydict;
  err_context2 : pydict;
  err_message : string }.

Record SkipDoc := mkSkipDoc {
  skip_documentId : pyval;
  skip_code : string;
  skip_partitionKey : pyval;
  skip_map1 : pydict;
  skip_map2 : pydict;
  skip_context1 : pydict;
  skip_context2 : pydict;
  skip_message : string }.

Inductive ParsedDoc :=
| PDocument : Document -> ParsedDoc
| PSkip : SkipDoc -> ParsedDoc
| PError : ErrorDoc -> ParsedDoc.

(** [ParseDocumentResult(None, doc, status)]; the first field is always
    [None] in these readers. *)
Record ParseDocumentResult := mkParseDocumentResult {
  pdr_reserved : pyval;
  pdr_document : ParsedDoc;
  pdr_status : string }.

(** ** Identifier derivation (shared by both readers)

<<
docId : str = None
for keyValue in keys.values():
    if docId is None:
        docId = keyValue
    else:
        docId += ('|'+keyValue)
>> *)
Fixpoint docId_loop (docId : pyval) (vals : list pyval) : result pyval :=
  match vals with
  | [] => Ok docId
  | keyValue :: rest =>
      match docId with
      | VNone => docId_loop keyValue rest
      | _ =>
          let! t := py_str_add "|" keyValue in
          match t with
          | VStr s => let! d := py_iadd_str docId s in docId_loop d rest
          | _ => Raise (TypeError "unreachable")
          end
      end
  end.

Definition derive_docId (keys : pyval) : result pyval :=
  let! vals := py_values keys in docId_loop VNone vals.

(** ** [DynamoDBTableItemReader.parseDynamoDBItem]

    Logging is a side effect only and is not modelled. [uuid] is the string
    [str(uuid.uuid4())] returns when the except branch runs. *)
Definition parseDynamoDBItem_try (keys item : pyval) : result ParseDocumentResult :=
  let! docId := derive_docId keys in
  let! empty :=
    match item with
    | VNone => Ok true
    | _ => let! n := py_len item in Ok (Nat.leb n 0)
    end in
  if empty then
    Ok (mkParseDocumentResult VNone
          (PError (mkErrorDoc docId "DDB_ERROR" docId [] []
                     [("keys", keys)] [("keys", keys)] "empty record"))
          "ERROR")
  else
    Ok (mkParseDocumentResult VNone
          (PDocument (mkDocument DocumentType_Document docId "DOCUMENT" docId [] item))
          "SUCCESS").

Definition parseDynamoDBItem (tableName : string) (segmentNumber : Z)
    (keys item : pyval) (uuid : string) : ParseDocumentResult :=
  match parseDynamoDBItem_try keys item with
  | Ok r => r
  | Raise ex =>
      mkParseDocumentResult VNone
        (PError (mkErrorDoc (VStr uuid) "DDB_ERROR" (VStr uuid) [] []
                   [("keys", keys)] [("keys", keys)]
                   ("Exception - " ++ exn_message ex)))
        "ERROR"
  end.

(** ** [DynamoDBStreamsRecordReader.parseRecord] *)
Record StreamEvent := mkStreamEvent {
  streamArn : string;
  shardId : string;
  eventId : string;
  eventName : string;
  identityPrincipalId : string;
  identityType : string;
  sequenceNumber : pyval;
  sizeBytes : Z;
  streamViewType : string;
  approximateCreationDateTime : Z }.

Definition parseRecord_try (ev : StreamEvent) (keys newImage : pyval)
    : result ParseDocumentResult :=
  let! docId := derive_docId keys in
  let! empty :=
    match newImage with
    | VNone => Ok true
    | _ => let! n := py_len newImage in Ok (Nat.leb n 0)
    end in
  if empty then
    Ok (mkParseDocumentResult VNone
          (PSkip (mkSkipDoc docId "DYNAMODBSTREAMS_SKIP" docId [] []
                    [("sequenceNumber", sequenceNumber ev)]
                    [("sequenceNumber", sequenceNumber ev)] "delete record"))
          "SKIP")
  else
    Ok (mkParseDocumentResult VNone
          (PDocument (mkDocument DocumentType_Document docId "DOCUMENT" docId [] newImage))
          "SUCCESS").

Definition parseRecord (ev : StreamEvent) (keys oldImage newImage : pyval)
    (uuid : string) : ParseDocumentResult :=
  match parseRecord_try ev keys newImage with
  | Ok r => r
  | Raise ex =>
      mkParseDocumentResult VNone
        (PError (mkErrorDoc (VStr uuid) "KINESIS_ERROR" (VStr uuid) [] []
                   [("sequenceNumber", sequenceNumber ev)]
                   [("sequenceNumber", sequenceNumber ev)]
                   ("Exception - " ++ exn_message ex)))
        "ERROR"
  end.

Example derive_ex1 :
  derive_docId (VDict [("pk", VStr "A"); ("sk", VStr "B")]) = Ok (VStr "A|B").
Proof. reflexivity. Qed.

Example derive_ex_none_first :
  derive_docId (VDict [("a", VNone); ("b", VStr "x")]) = Ok (VStr "x").
Proof. reflexivity. Qed.

(** ** The spec's Derived Identifier, for comparison

    The Key Mapping's string values joined with ['|'] in iteration order;
    undefined ([None]) for an empty mapping. *)
Definition joined_id (ss : list string) : pyval :=
  match ss with
  | [] => VNone
  | _ => VStr (String.concat "|" ss)
  end.

(** A parse result whose reserved field is [None] and whose status tag names
    the variant of its document. *)
Definition result_contract (r : ParseDocumentResult) : Prop :=
  pdr_reserved r = VNone /\
  ((pdr_status r = "SUCCESS" /\ exists d, pdr_document r = PDocument d) \/
   (pdr_status r = "SKIP" /\ exists d, pdr_document r = PSkip d) \/
   (pdr_status r = "ERROR" /\ exists d, pdr_document r = PError d)).

(** ** Lemmas on the identifier derivation *)

Lemma str_app_assoc (a b c : string) : a ++ (b ++ c) = (a ++ b) ++ c.
Proof. induction a as [|x a IH]; simpl; [reflexivity | now rewrite IH]. Qed.

Lemma str_app_nil (a : string) : a ++ "" = a.
Proof. induction a as [|x a IH]; simpl; [reflexivity | now rewrite IH]. Qed.

Definition bar_step (acc t : string) : string := acc ++ "|" ++ t.

Lemma fold_bar_app (ss : list string) (x y : string) :
  fold_left bar_step ss (x ++ y) = x ++ fold_left bar_step ss y.
Proof.
  revert y; induction ss as [|t ss IH]; intro y; simpl; [reflexivity|].
  unfold bar_step at 2 3. rewrite <- str_app_assoc. apply IH.
Qed.

Lemma concat_bar_fold (s : string) (ss : list string) :
  String.concat "|" (s :: ss) = fold_left bar_step ss s.
Proof.
  revert s; induction ss as [|t ss IH]; intro s; [reflexivity|].
  change (String.concat "|" (s :: t :: ss))
    with (s ++ "|" ++ String.concat "|" (t :: ss)).
  rewrite IH. cbn [fold_left].
  change (bar_step s t) with (s ++ ("|" ++ t)).
  rewrite (fold_bar_app ss s ("|" ++ t)). f_equal.
  change ("|" ++ t) with ("|" ++ ("" ++ t)).
  rewrite (fold_bar_app ss "|" ("" ++ t)). reflexivity.
Qed.

Lemma docId_loop_strs (a : string) (ss : list string) :
  docId_loop (VStr a) (map VStr ss) = Ok (VStr (fold_left bar_step ss a)).
Proof.
  revert a; induction ss as [|t ss IH]; intro a; simpl; [reflexivity|].
  apply IH.
Qed.

Lemma derive_docId_strs (kvs : pydict) (ss : list string) :
  map snd kvs = map VStr ss -> derive_docId (VDict kvs) = Ok (joined_id ss).
Proof.
  intro H. unfold derive_docId; simpl. rewrite H.
  destruct ss as [|s ss]; [reflexivity|].
  unfold joined_id; rewrite concat_bar_fold.
  cbn [map docId_loop]. apply docId_loop_strs.
Qed.

Lemma parseDynamoDBItem_try_contract (keys item : pyval) (r : ParseDocumentResult) :
  parseDynamoDBItem_try keys item = Ok r -> result_contract r.
Proof.
  unfold parseDynamoDBItem_try, result_contract.
  destruct (derive_docId keys) as [docId|e]; simpl; [|discriminate].
  destruct item as [| z | s | d]; simpl; try discriminate;
    try (destruct (Nat.leb _ 0)); intro H; injection H as <-; simpl;
    eauto 10.
Qed.

Lemma parseRecord_try_contract (ev : StreamEvent) (keys newImage : pyval)
    (r : ParseDocumentResult) :
  parseRecord_try ev keys newImage = Ok r -> result_contract r.
Proof.
  unfold parseRecord_try, result_contract.
  destruct (derive_docId keys) as [docId|e]; simpl; [|discriminate].
  destruct newImage as [| z | s | d]; simpl; try discriminate;
    try (destruct (Nat.leb _ 0)); intro H; injection H as <-; simpl;
    eauto 10.
Qed.

(** ** Claims *)

(** C2: for a Key Mapping whose values are strings, the identifier both
    readers derive is [None] when the mapping is empty and otherwise its
    values joined with ['|'] in iteration order. *)
Theorem derive_docId_joins_values :
  derive_docId (VDict []) = Ok VNone /\
  (forall (kvs : pydict) (ss : list string),
      map snd kvs = map VStr ss -> ss <> [] ->
      derive_docId (VDict kvs) = Ok (VStr (String.concat "|" ss))).
Proof.
  split; [reflexivity|].
  intros kvs ss H Hne. rewrite (derive_docId_strs kvs ss H).
  destruct ss; [contradiction | reflexivity].
Qed.

Lemma derive_docId_joins_values_witness :
  map snd [("pk", VStr "A"); ("sk", VStr "B")] = map VStr ["A"; "B"] /\
  derive_docId (VDict [("pk", VStr "A"); ("sk", VStr "B")]) = Ok (VStr "A|B").
Proof.
  split; [reflexivity|].
  apply (proj2 derive_docId_joins_values [("pk", VStr "A"); ("sk", VStr "B")] ["A"; "B"]);
    [reflexivity | discriminate].
Defined.

(** C3: for string-valued keys and a non-empty item, [parseDynamoDBItem]
    returns SUCCESS with a Document whose id and partition key are the
    Derived Identifier, tag "DOCUMENT", empty metadata, and the item itself
    as payload. *)
Theorem parseDynamoDBItem_success (tableName : string) (segmentNumber : Z)
    (kvs : pydict) (ss : list string) (item : pydict) (uuid : string)
    (Hkeys : map snd kvs = map VStr ss) (Hitem : item <> []) :
  parseDynamoDBItem tableName segmentNumber (VDict kvs) (VDict item) uuid =
  mkParseDocumentResult VNone
    (PDocument (mkDocument DocumentType_Document (joined_id ss) "DOCUMENT"
                  (joined_id ss) [] (VDict item)))
    "SUCCESS".
Proof.
  unfold parseDynamoDBItem, parseDynamoDBItem_try.
  rewrite (derive_docId_strs kvs ss Hkeys). simpl.
  destruct item; [contradiction | reflexivity].
Qed.

Lemma parseDynamoDBItem_success_witness :
  parseDynamoDBItem "tbl" 0 (VDict [("pk", VStr "A"); ("sk", VStr "B")])
    (VDict [("x", VStr "1")]) "u" =
  mkParseDocumentResult VNone
    (PDocument (mkDocument DocumentType_Document (VStr "A|B") "DOCUMENT"
                  (VStr "A|B") [] (VDict [("x", VStr "1")])))
    "SUCCESS".
Proof.
  apply (parseDynamoDBItem_success "tbl" 0 _ ["A"; "B"]); [reflexivity | discriminate].
Defined.

(** C4: for string-valued keys and an item that is [None] or [{}],
    [parseDynamoDBItem] returns ERROR with an ErrorDoc carrying the Derived
    Identifier, code "DDB_ERROR", text "empty record" and [{"keys": keys}]
    in both context slots. *)
Theorem parseDynamoDBItem_empty_item (tableName : string) (segmentNumber : Z)
    (kvs : pydict) (ss : list string) (item : pyval) (uuid : string)
    (Hkeys : map snd kvs = map VStr ss) (Hitem : item = VNone \/ item = VDict []) :
  parseDynamoDBItem tableName segmentNumber (VDict kvs) item uuid =
  mkParseDocumentResult VNone
    (PError (mkErrorDoc (joined_id ss) "DDB_ERROR" (joined_id ss) [] []
               [("keys", VDict kvs)] [("keys", VDict kvs)] "empty record"))
    "ERROR".
Proof.
  unfold parseDynamoDBItem, parseDynamoDBItem_try.
  rewrite (derive_docId_strs kvs ss Hkeys). simpl.
  destruct Hitem as [-> | ->]; reflexivity.
Qed.

Lemma parseDynamoDBItem_empty_item_witness :
  parseDynamoDBItem "tbl" 0 (VDict [("pk", VStr "A")]) (VDict []) "u" =
  mkParseDocumentResult VNone
    (PError (mkErrorDoc (VStr "A") "DDB_ERROR" (VStr "A") [] []
               [("keys", VDict [("pk", VStr "A")])] [("keys", VDict [("pk", VStr "A")])]
               "empty record"))
    "ERROR".
Proof.
  apply (parseDynamoDBItem_empty_item "tbl" 0 _ ["A"]); [reflexivity | right; reflexivity].
Defined.

(** C5: for string-valued keys and a newImage that is [None] or [{}],
    [parseRecord] returns SKIP with a SkipDoc carrying the Derived
    Identifier, code "DYNAMODBSTREAMS_SKIP", text "delete record" and
    [{"sequenceNumber": sequenceNumber}] in both context slots. *)
Theorem parseRecord_empty_newImage (ev : StreamEvent) (kvs : pydict)
    (ss : list string) (oldImage newImage : pyval) (uuid : string)
    (Hkeys : map snd kvs = map VStr ss)
    (Hnew : newImage = VNone \/ newImage = VDict []) :
  parseRecord ev (VDict kvs) oldImage newImage uuid =
  mkParseDocumentResult VNone
    (PSkip (mkSkipDoc (joined_id ss) "DYNAMODBSTREAMS_SKIP" (joined_id ss) [] []
              [("sequenceNumber", sequenceNumber ev)]
              [("sequenceNumber", sequenceNumber ev)] "delete record"))
    "SKIP".
Proof.
  unfold parseRecord, parseRecord_try.
  rewrite (derive_docId_strs kvs ss Hkeys). simpl.
  destruct Hnew as [-> | ->]; reflexivity.
Qed.

Definition sample_event : StreamEvent :=
  mkStreamEvent "arn:aws:dynamodb:us-east-1:1:table/t/stream/s" "shard-0" "ev-1"
    "REMOVE" "p" "Service" (VStr "100") 12 "NEW_AND_OLD_IMAGES" 1700000000.

Lemma parseRecord_empty_newImage_witness :
  parseRecord sample_event (VDict [("pk", VStr "A")]) (VDict [("x", VStr "1")]) VNone "u" =
  mkParseDocumentResult VNone
    (PSkip (mkSkipDoc (VStr "A") "DYNAMODBSTREAMS_SKIP" (VStr "A") [] []
              [("sequenceNumber", VStr "100")] [("sequenceNumber", VStr "100")]
              "delete record"))
    "SKIP".
Proof.
  apply (parseRecord_empty_newImage sample_event _ ["A"]); [reflexivity | left; reflexivity].
Defined.

(** C6: for string-valued keys and a non-empty newImage, [parseRecord]
    returns SUCCESS with a Document whose id and partition key are the
    Derived Identifier, tag "DOCUMENT", and newImage itself as payload. *)
Theorem parseRecord_success (ev : StreamEvent) (kvs : pydict) (ss : list string)
    (oldImage : pyval) (newImage : pydict) (uuid : string)
    (Hkeys : map snd kvs = map VStr ss) (Hnew : newImage <> []) :
  parseRecord ev (VDict kvs) oldImage (VDict newImage) uuid =
  mkParseDocumentResult VNone
    (PDocument (mkDocument DocumentType_Document (joined_id ss) "DOCUMENT"
                  (joined_id ss) [] (VDict newImage)))
    "SUCCESS".
Proof.
  unfold parseRecord, parseRecord_try.
  rewrite (derive_docId_strs kvs ss Hkeys). simpl.
  destruct newImage; [contradiction | reflexivity].
Qed.

Lemma parseRecord_success_witness :
  parseRecord sample_event (VDict [("pk", VStr "A")]) VNone (VDict [("x", VStr "1")]) "u" =
  mkParseDocumentResult VNone
    (PDocument (mkDocument DocumentType_Document (VStr "A") "DOCUMENT"
                  (VStr "A") [] (VDict [("x", VStr "1")])))
    "SUCCESS".
Proof.
  apply (parseRecord_success sample_event _ ["A"]); [reflexivity | discriminate].
Defined.

(** C7: [parseRecord] never reads oldImage: two calls that differ only in
    oldImage (with the same value drawn from [uuid.uuid4()]) return the same
    result, in every branch. *)
Theorem parseRecord_oldImage_irrelevant (ev : StreamEvent) (keys oldImage1 oldImage2
    newImage : pyval) (uuid : string) :
  parseRecord ev keys oldImage1 newImage uuid = parseRecord ev keys oldImage2 newImage uuid.
Proof. reflexivity. Qed.

(** C8: every result of either reader is [(None, doc, status)] with status
    "SUCCESS" and a Document, "SKIP" and a SkipDoc, or "ERROR" and an
    ErrorDoc. *)
Theorem readers_result_contract (tableName : string) (segmentNumber : Z)
    (ev : StreamEvent) (keys item oldImage newImage : pyval) (uuid : string) :
  result_contract (parseDynamoDBItem tableName segmentNumber keys item uuid) /\
  result_contract (parseRecord ev keys oldImage newImage uuid).
Proof.
  split.
  - unfold parseDynamoDBItem.
    destruct (parseDynamoDBItem_try keys item) as [r|ex] eqn:E.
    + exact (parseDynamoDBItem_try_contract keys item r E).
    + unfold result_contract; simpl; eauto 10.
  - unfold parseRecord.
    destruct (parseRecord_try ev keys newImage) as [r|ex] eqn:E.
    + exact (parseRecord_try_contract ev keys newImage r E).
    + unfold result_contract; simpl; eauto 10.
Qed.

(** *** The faults of the readers' try bodies *)

Definition is_str (v : pyval) : bool :=
  match v with VStr _ => true | _ => false end.

Definition is_dict (v : pyval) : bool :=
  match v with VDict _ => true | _ => false end.

(** [str(ex)] of the TypeErrors of ['|' + v] and of [docId += t]. *)
Definition concat_msg (v : pyval) : string :=
  "can only concatenate str (not " ++ dq ++ type_name v ++ dq ++ ") to str".

Definition iadd_msg (v : pyval) : string :=
  "unsupported operand type(s) for +=: '" ++ type_name v ++ "' and 'str'".

(** The result each reader's except branch builds for the fault [ex]. *)
Definition ddb_fallback (keys : pyval) (uuid : string) (ex : exn) : ParseDocumentResult :=
  mkParseDocumentResult VNone
    (PError (mkErrorDoc (VStr uuid) "DDB_ERROR" (VStr uuid) [] []
               [("keys", keys)] [("keys", keys)] ("Exception - " ++ exn_message ex)))
    "ERROR".

Definition kinesis_fallback (ev : StreamEvent) (uuid : string) (ex : exn) : ParseDocumentResult :=
  mkParseDocumentResult VNone
    (PError (mkErrorDoc (VStr uuid) "KINESIS_ERROR" (VStr uuid) [] []
               [("sequenceNumber", sequenceNumber ev)]
               [("sequenceNumber", sequenceNumber ev)]
               ("Exception - " ++ exn_message ex)))
    "ERROR".

(** The faults listed by the amended C1, for [keys] and the item (or
    newImage) [payload]: [keys] without [.values()]; a non-str key value
    after a str identifier (leading [None] values being skipped); a non-str
    identifier followed by any further value; a payload without [len()]
    once the identifier is derived. *)
Inductive reader_fault (keys payload : pyval) : exn -> Prop :=
| fault_no_values :
    is_dict keys = false ->
    reader_fault keys payload
      (AttributeError ("'" ++ type_name keys ++ "' object has no attribute 'values'"))
| fault_non_str_after_str (kvs : pydict) (n : nat) (a : string) (ss : list string)
    (v : pyval) (rest : list pyval) :
    keys = VDict kvs ->
    map snd kvs = (repeat VNone n ++ VStr a :: map VStr ss ++ v :: rest)%list ->
    is_str v = false ->
    reader_fault keys payload (TypeError (concat_msg v))
| fault_after_non_str_id (kvs : pydict) (n : nat) (v w : pyval) (rest : list pyval) :
    keys = VDict kvs ->
    map snd kvs = (repeat VNone n ++ v :: w :: rest)%list ->
    v <> VNone -> is_str v = false ->
    reader_fault keys payload (TypeError (if is_str w then iadd_msg v else concat_msg w))
| fault_no_len (docId : pyval) (z : Z) :
    derive_docId keys = Ok docId -> payload = VInt z ->
    reader_fault keys payload (TypeError "object of type 'int' has no len()").

Lemma docId_loop_none_prefix (n : nat) (l : list pyval) :
  docId_loop VNone (repeat VNone n ++ l) = docId_loop VNone l.
Proof. induction n as [|n IH]; simpl; [reflexivity | exact IH]. Qed.

Lemma docId_loop_strs_app (a : string) (ss : list string) (l : list pyval) :
  docId_loop (VStr a) (map VStr ss ++ l) = docId_loop (VStr (fold_left bar_step ss a)) l.
Proof.
  revert a; induction ss as [|t ss IH]; intro a; simpl; [reflexivity|].
  apply IH.
Qed.

Lemma docId_loop_str_raise (a : string) (l : list pyval) (ex : exn) :
  docId_loop (VStr a) l = Raise ex ->
  exists ss v rest, l = (map VStr ss ++ v :: rest)%list /\ is_str v = false /\
                    ex = TypeError (concat_msg v).
Proof.
  revert a; induction l as [|x l IH]; intros a H; [discriminate|].
  destruct x as [| z | b | d]; cbn [docId_loop py_str_add bind] in H.
  - injection H as <-. exists [], VNone, l. repeat split.
  - injection H as <-. exists [], (VInt z), l. repeat split.
  - cbn [py_iadd_str bind] in H. destruct (IH _ H) as (ss & v & rest & -> & Hv & ->).
    exists (b :: ss), v, rest. repeat split; assumption.
  - injection H as <-. exists [], (VDict d), l. repeat split.
Qed.

Lemma docId_loop_non_str_raise (d : pyval) (l : list pyval) (ex : exn) :
  d <> VNone -> is_str d = false -> docId_loop d l = Raise ex ->
  exists w rest, l = w :: rest /\
                 ex = TypeError (if is_str w then iadd_msg d else concat_msg w).
Proof.
  intros Hn Hs H. destruct l as [|w rest]; [discriminate|].
  exists w, rest. split; [reflexivity|].
  destruct d as [| z | t | e]; [contradiction | | discriminate |];
    destruct w; cbn in H |- *; injection H as <-; reflexivity.
Qed.

Lemma docId_loop_none_raise (l : list pyval) (ex : exn) :
  docId_loop VNone l = Raise ex ->
  exists n v rest, l = (repeat VNone n ++ v :: rest)%list /\ v <> VNone /\
                   docId_loop v rest = Raise ex.
Proof.
  induction l as [|x l IH]; intro H; [discriminate|].
  cbn [docId_loop] in H. destruct x.
  - destruct (IH H) as (n & v & rest & -> & Hv & Hr).
    exists (S n), v, rest. repeat split; assumption.
  - exists 0, (VInt z), l. repeat split; [discriminate | exact H].
  - exists 0, (VStr s), l. repeat split; [discriminate | exact H].
  - exists 0, (VDict l0), l. repeat split; [discriminate | exact H].
Qed.

Lemma derive_docId_raise_fault (keys payload : pyval) (ex : exn) :
  derive_docId keys = Raise ex -> reader_fault keys payload ex.
Proof.
  intro H. destruct keys as [| z | s | kvs];
    try (injection H as <-; apply fault_no_values; reflexivity).
  unfold derive_docId in H; cbn [py_values bind] in H.
  destruct (docId_loop_none_raise _ _ H) as (n & v & rest & Hm & Hv & Hr).
  destruct v as [| z | a | d]; [contradiction | | |].
  - destruct (docId_loop_non_str_raise _ _ _ Hv eq_refl Hr) as (w & rest' & -> & ->).
    eapply fault_after_non_str_id; [reflexivity | exact Hm | exact Hv | reflexivity].
  - destruct (docId_loop_str_raise _ _ _ Hr) as (ss & w & rest' & -> & Hw & ->).
    eapply fault_non_str_after_str; [reflexivity | exact Hm | exact Hw].
  - destruct (docId_loop_non_str_raise _ _ _ Hv eq_refl Hr) as (w & rest' & -> & ->).
    eapply fault_after_non_str_id; [reflexivity | exact Hm | exact Hv | reflexivity].
Qed.

(** The payload test: [payload is None or len(payload) <= 0]. *)
Definition payload_empty (payload : pyval) : result bool :=
  match payload with
  | VNone => Ok true
  | _ => let! n := py_len payload in Ok (Nat.leb n 0)
  end.

Lemma payload_empty_raise (payload : pyval) (ex : exn) :
  payload_empty payload = Raise ex ->
  exists z, payload = VInt z /\ ex = TypeError "object of type 'int' has no len()".
Proof.
  destruct payload as [| z | s | d]; cbn; intro H; try discriminate.
  injection H as <-. exists z. split; reflexivity.
Qed.

Lemma fault_derive_or_len (keys payload : pyval) (ex : exn) :
  reader_fault keys payload ex ->
  derive_docId keys = Raise ex \/
  exists d z, derive_docId keys = Ok d /\ payload = VInt z /\
              ex = TypeError "object of type 'int' has no len()".
Proof.
  intro F; destruct F as [Hd | kvs n a ss v rest -> Hm Hv | kvs n v w rest -> Hm Hn Hs
                         | d z Hd Hp].
  - left. destruct keys; try discriminate; reflexivity.
  - left. unfold derive_docId; cbn [py_values bind]. rewrite Hm, docId_loop_none_prefix.
    cbn [docId_loop app]. rewrite docId_loop_strs_app.
    destruct v; try discriminate; reflexivity.
  - left. unfold derive_docId; cbn [py_values bind]. rewrite Hm, docId_loop_none_prefix.
    cbn [docId_loop app].
    destruct v as [| z | t | e]; [contradiction | | discriminate |];
      destruct w; reflexivity.
  - right. exists d, z. repeat split; assumption.
Qed.

(** Both try bodies as [derive_docId], then [payload_empty]. *)
Lemma parseDynamoDBItem_try_bind (keys item : pyval) :
  parseDynamoDBItem_try keys item =
  let! docId := derive_docId keys in
  let! empty := payload_empty item in
  if empty then
    Ok (mkParseDocumentResult VNone
          (PError (mkErrorDoc docId "DDB_ERROR" docId [] []
                     [("keys", keys)] [("keys", keys)] "empty record"))
          "ERROR")
  else
    Ok (mkParseDocumentResult VNone
          (PDocument (mkDocument DocumentType_Document docId "DOCUMENT" docId [] item))
          "SUCCESS").
Proof. reflexivity. Qed.

Lemma parseRecord_try_bind (ev : StreamEvent) (keys newImage : pyval) :
  parseRecord_try ev keys newImage =
  let! docId := derive_docId keys in
  let! empty := payload_empty newImage in
  if empty then
    Ok (mkParseDocumentResult VNone
          (PSkip (mkSkipDoc docId "DYNAMODBSTREAMS_SKIP" docId [] []
                    [("sequenceNumber", sequenceNumber ev)]
                    [("sequenceNumber", sequenceNumber ev)] "delete record"))
          "SKIP")
  else
    Ok (mkParseDocumentResult VNone
          (PDocument (mkDocument DocumentType_Document docId "DOCUMENT" docId [] newImage))
          "SUCCESS").
Proof. reflexivity. Qed.

Lemma try_body_raise_iff (keys payload : pyval) (ex : exn)
    (k : pyval -> bool -> result ParseDocumentResult)
    (Hk : forall d b, exists r, k d b = Ok r) :
  (let! docId := derive_docId keys in let! empty := payload_empty payload in k docId empty)
    = Raise ex <-> reader_fault keys payload ex.
Proof.
  split.
  - destruct (derive_docId keys) as [d|e] eqn:Ed; cbn [bind].
    + destruct (payload_empty payload) as [b|e] eqn:Ep; cbn [bind].
      * destruct (Hk d b) as [r ->]. discriminate.
      * intro H; injection H as <-.
        destruct (payload_empty_raise _ _ Ep) as (z & Hz & ->).
        eapply fault_no_len; [exact Ed | exact Hz].
    + intro H; injection H as <-. apply derive_docId_raise_fault; exact Ed.
  - intro F; destruct (fault_derive_or_len _ _ _ F) as [Hd | (d & z & Hd & -> & ->)];
      rewrite Hd; reflexivity.
Qed.

Lemma parseDynamoDBItem_try_raise_iff (keys item : pyval) (ex : exn) :
  parseDynamoDBItem_try keys item = Raise ex <-> reader_fault keys item ex.
Proof.
  rewrite parseDynamoDBItem_try_bind. apply try_body_raise_iff.
  intros d [|]; eexists; reflexivity.
Qed.

Lemma parseRecord_try_raise_iff (ev : StreamEvent) (keys newImage : pyval) (ex : exn) :
  parseRecord_try ev keys newImage = Raise ex <-> reader_fault keys newImage ex.
Proof.
  rewrite parseRecord_try_bind. apply try_body_raise_iff.
  intros d [|]; eexists; reflexivity.
Qed.

Lemma payload_empty_ok (payload : pyval) :
  (forall z, payload <> VInt z) -> exists b, payload_empty payload = Ok b.
Proof.
  intro H. destruct payload as [| z | s | d]; cbn; eauto.
  exfalso; exact (H z eq_refl).
Qed.

(** Faults of the identifier derivation at sample inputs. *)
Lemma derive_docId_faults :
  derive_docId VNone =
    Raise (AttributeError "'NoneType' object has no attribute 'values'") /\
  derive_docId (VDict [("pk", VStr "A"); ("sk", VInt 1)]) =
    Raise (TypeError ("can only concatenate str (not " ++ dq ++ "int" ++ dq ++ ") to str")) /\
  derive_docId (VDict [("pk", VInt 1); ("sk", VStr "B")]) =
    Raise (TypeError "unsupported operand type(s) for +=: 'int' and 'str'") /\
  derive_docId (VDict [("pk", VInt 5)]) = Ok (VInt 5).
Proof. repeat split. Qed.

(** C1 (as amended): the try body of either reader raises a fault [ex]
    exactly for the inputs of [reader_fault] ([keys] without [.values()],
    a non-str key value after a str identifier, a non-str identifier
    followed by another value, a payload without [len()]); the reader then
    returns [(None, ErrorDoc(u, code, u, {}, {}, ctx, ctx, "Exception - " +
    str(ex)), "ERROR")] with [u] the fresh [str(uuid.uuid4())], whatever the
    keys, the code "DDB_ERROR" with [{"keys": keys}] for the table-item
    reader and "KINESIS_ERROR" with [{"sequenceNumber": sequenceNumber}] for
    the stream reader; the fault never escapes. A lone key value, of any
    type, raises no fault in either reader unless the payload has no
    [len()]. *)
Theorem readers_contain_faults (tableName : string) (segmentNumber : Z)
    (ev : StreamEvent) (keys item oldImage newImage : pyval) (uuid : string)
    (ex : exn) :
  (parseDynamoDBItem_try keys item = Raise ex <-> reader_fault keys item ex) /\
  (parseRecord_try ev keys newImage = Raise ex <-> reader_fault keys newImage ex) /\
  (reader_fault keys item ex ->
   parseDynamoDBItem tableName segmentNumber keys item uuid = ddb_fallback keys uuid ex) /\
  (reader_fault keys newImage ex ->
   parseRecord ev keys oldImage newImage uuid = kinesis_fallback ev uuid ex) /\
  (forall k v, keys = VDict [(k, v)] -> (forall z, item <> VInt z) ->
   exists r, parseDynamoDBItem_try keys item = Ok r /\
             parseDynamoDBItem tableName segmentNumber keys item uuid = r) /\
  (forall k v, keys = VDict [(k, v)] -> (forall z, newImage <> VInt z) ->
   exists r, parseRecord_try ev keys newImage = Ok r /\
             parseRecord ev keys oldImage newImage uuid = r).
Proof.
  pose proof (parseDynamoDBItem_try_raise_iff keys item ex) as Hd.
  pose proof (parseRecord_try_raise_iff ev keys newImage ex) as Hr.
  split; [exact Hd|]. split; [exact Hr|].
  split; [intro F; unfold parseDynamoDBItem; rewrite (proj2 Hd F); reflexivity|].
  split; [intro F; unfold parseRecord; rewrite (proj2 Hr F); reflexivity|].
  split; intros k v -> Hp; destruct (payload_empty_ok _ Hp) as [b Hb].
  - assert (E : exists r, parseDynamoDBItem_try (VDict [(k, v)]) item = Ok r).
    { rewrite parseDynamoDBItem_try_bind. cbn [derive_docId py_values map snd bind docId_loop].
      rewrite Hb. cbn [bind]. destruct b; eexists; reflexivity. }
    destruct E as [r E]. exists r. split; [exact E|].
    unfold parseDynamoDBItem. rewrite E. reflexivity.
  - assert (E : exists r, parseRecord_try ev (VDict [(k, v)]) newImage = Ok r).
    { rewrite parseRecord_try_bind. cbn [derive_docId py_values map snd bind docId_loop].
      rewrite Hb. cbn [bind]. destruct b; eexists; reflexivity. }
    destruct E as [r E]. exists r. split; [exact E|].
    unfold parseRecord. rewrite E. reflexivity.
Qed.

Definition nokeys_fault : exn :=
  AttributeError "'NoneType' object has no attribute 'values'".

Lemma readers_contain_faults_witness :
  parseDynamoDBItem "tbl" 0 VNone (VDict [("x", VStr "1")]) "u-1" =
    ddb_fallback VNone "u-1" nokeys_fault /\
  parseRecord sample_event (VDict [("pk", VInt 1); ("sk", VStr "B")]) VNone
    (VDict [("x", VStr "1")]) "u-2" =
    kinesis_fallback sample_event "u-2" (TypeError (iadd_msg (VInt 1))) /\
  reader_fault (VDict [("pk", VStr "A"); ("sk", VInt 7)]) VNone
    (TypeError (concat_msg (VInt 7))) /\
  parseDynamoDBItem_try (VDict [("pk", VStr "A")]) (VInt 3) =
    Raise (TypeError "object of type 'int' has no len()") /\
  exists r, parseRecord_try sample_event (VDict [("pk", VInt 5)]) (VDict [("x", VStr "1")])
              = Ok r.
Proof.
  split.
  { apply (proj1 (proj2 (proj2 (readers_contain_faults "tbl" 0 sample_event VNone
             (VDict [("x", VStr "1")]) VNone VNone "u-1" nokeys_fault)))).
    apply fault_no_values. reflexivity. }
  split.
  { apply (proj1 (proj2 (proj2 (proj2 (readers_contain_faults "tbl" 0 sample_event
             (VDict [("pk", VInt 1); ("sk", VStr "B")]) VNone VNone
             (VDict [("x", VStr "1")]) "u-2" (TypeError (iadd_msg (VInt 1)))))))).
    apply (fault_after_non_str_id _ _ [("pk", VInt 1); ("sk", VStr "B")] 0 (VInt 1)
             (VStr "B") []); [reflexivity | reflexivity | discriminate | reflexivity]. }
  split.
  { apply (proj1 (proj1 (readers_contain_faults "tbl" 0 sample_event
             (VDict [("pk", VStr "A"); ("sk", VInt 7)]) VNone VNone VNone "u"
             (TypeError (concat_msg (VInt 7)))))).
    reflexivity. }
  split.
  { apply (proj2 (proj1 (readers_contain_faults "tbl" 0 sample_event
             (VDict [("pk", VStr "A")]) (VInt 3) VNone VNone "u"
             (TypeError "object of type 'int' has no len()")))).
    apply (fault_no_len _ _ (VStr "A") 3); reflexivity. }
  destruct (proj2 (proj2 (proj2 (proj2 (proj2 (readers_contain_faults "tbl" 0 sample_event
              (VDict [("pk", VInt 5)]) VNone VNone (VDict [("x", VStr "1")]) "u"
              nokeys_fault))))) "pk" (VInt 5) eq_refl ltac:(discriminate))
    as [r [Hr _]].
  exists r. exact Hr.
Defined.

Definition uuid_sample : string := "6f1c2a9e-3b7d-4c1e-9a2b-0d5e8f7a6b4c".

(** C1, counterexample: the fallback identifier is not checked against the
    keys. With keys [{"pk": u, "sk": 1}] the derivation raises in both
    readers, and if [uuid.uuid4()] yields [u] the ErrorDoc's identifier is
    a Key Mapping value. Also, a lone non-str key value raises no fault in
    either reader: [{"pk": 5}] gives SUCCESS. *)
Lemma readers_contain_faults_counterexample :
  (exists ex, parseDynamoDBItem_try
                (VDict [("pk", VStr uuid_sample); ("sk", VInt 1)])
                (VDict [("x", VStr "1")]) = Raise ex) /\
  match pdr_document (parseDynamoDBItem "tbl" 0
                        (VDict [("pk", VStr uuid_sample); ("sk", VInt 1)])
                        (VDict [("x", VStr "1")]) uuid_sample) with
  | PError e => In (err_documentId e) (map snd [("pk", VStr uuid_sample); ("sk", VInt 1)])
  | _ => False
  end /\
  match pdr_document (parseRecord sample_event
                        (VDict [("pk", VStr uuid_sample); ("sk", VInt 1)]) VNone
                        (VDict [("x", VStr "1")]) uuid_sample) with
  | PError e => In (err_documentId e) (map snd [("pk", VStr uuid_sample); ("sk", VInt 1)])
  | _ => False
  end /\
  pdr_status (parseDynamoDBItem "tbl" 0 (VDict [("pk", VInt 5)])
                (VDict [("x", VStr "1")]) uuid_sample) = "SUCCESS" /\
  pdr_status (parseRecord sample_event (VDict [("pk", VInt 5)]) VNone
                (VDict [("x", VStr "1")]) uuid_sample) = "SUCCESS".
Proof.
  split; [eexists; reflexivity|].
  split; [simpl; left; reflexivity|].
  split; [simpl; left; reflexivity|].
  split; reflexivity.
Qed.

(** ** Spark mapper: the [to_map] udf

<<
def to_map(arr):
    map_value = dict()
    try:
        for i in range(1,len(arr),2):
            key = arr[i]
            value = arr[i+1]
            map_value[key] = value
    except Exception as err:
        print(...)
        pass
    return map_value
>> *)

(** [d[k] = v] on a str-keyed dict: an existing key keeps its position and
    takes the new value, a new key goes last. *)
Fixpoint dict_set (d : list (string * string)) (k v : string) : list (string * string) :=
  match d with
  | [] => [(k, v)]
  | (k', v') :: r => if String.eqb k k' then (k, v) :: r else (k', v') :: dict_set r k v
  end.

Fixpoint dict_get (d : list (string * string)) (k : string) : option string :=
  match d with
  | [] => None
  | (k', v') :: r => if String.eqb k k' then Some v' else dict_get r k
  end.

(** [range(start, stop, step)] for a positive step. *)
Definition py_range (start stop step : nat) : list nat :=
  map (fun j => start + j * step) (seq 0 ((stop - start + step - 1) / step)).

(** [arr[i]] for a non-negative index. *)
Definition py_index (arr : list string) (i : nat) : result string :=
  match nth_error arr i with
  | Some x => Ok x
  | None => Raise (IndexError "list index out of range")
  end.

(** The loop inside the [try]: the map built so far, and the exception that
    stopped it, if any. *)
Fixpoint to_map_loop (arr : list string) (idxs : list nat)
    (map_value : list (string * string)) : list (string * string) * option exn :=
  match idxs with
  | [] => (map_value, None)
  | i :: rest =>
      match py_index arr i with
      | Raise e => (map_value, Some e)
      | Ok key =>
          match py_index arr (i + 1) with
          | Raise e => (map_value, Some e)
          | Ok value => to_map_loop arr rest (dict_set map_value key value)
          end
      end
  end.

Definition to_map_try (arr : list string) : list (string * string) * option exn :=
  to_map_loop arr (py_range 1 (List.length arr) 2) [].

(** The [except] clause prints and returns the partial map. *)
Definition to_map (arr : list string) : list (string * string) :=
  fst (to_map_try arr).

(** The pairs [(arr[1], arr[2]), (arr[3], arr[4]), ...] of the claim, a
    trailing unpaired element dropped. *)
Fixpoint kv_pairs (l : list string) : list (string * string) :=
  match l with
  | k :: v :: r => (k, v) :: kv_pairs r
  | _ => []
  end.

Definition to_map_spec (arr : list string) : list (string * string) :=
  fold_left (fun m kv => dict_set m (fst kv) (snd kv)) (kv_pairs (tl arr)) [].

Example to_map_ex_odd : to_map ["WARC/1.0"; "k1"; "v1"; "k2"; "v2"] = [("k1", "v1"); ("k2", "v2")].
Proof. reflexivity. Qed.

Example to_map_ex_even : to_map ["WARC/1.0"; "k1"; "v1"; "k2"] = [("k1", "v1")].
Proof. reflexivity. Qed.

Example to_map_ex_dup : to_map ["h"; "k"; "a"; "j"; "b"; "k"; "c"] = [("k", "c"); ("j", "b")].
Proof. reflexivity. Qed.

Definition set_pair (m : list (string * string)) (kv : string * string) :=
  dict_set m (fst kv) (snd kv).

Definition last_value_for (k : string) (acc : option string) (kv : string * string) :=
  if String.eqb k (fst kv) then Some (snd kv) else acc.

Lemma dict_get_set (d : list (string * string)) (k v x : string) :
  dict_get (dict_set d k v) x = if String.eqb x k then Some v else dict_get d x.
Proof.
  induction d as [|[k' v'] r IH]; simpl; [reflexivity|].
  destruct (String.eqb_spec k k') as [<-|Hne]; simpl.
  - destruct (String.eqb x k); reflexivity.
  - rewrite IH. destruct (String.eqb_spec x k'), (String.eqb_spec x k); subst;
      congruence.
Qed.

Lemma dict_get_fold (ps : list (string * string)) (m : list (string * string)) (k : string) :
  dict_get (fold_left set_pair ps m) k = fold_left (last_value_for k) ps (dict_get m k).
Proof.
  revert m; induction ps as [|[k' v'] ps IH]; intro m; simpl; [reflexivity|].
  rewrite IH. unfold set_pair, last_value_for; simpl. rewrite dict_get_set. reflexivity.
Qed.

Lemma to_map_loop_pairs (c a : nat) (p t : list string) (m : list (string * string)) :
  List.length p = 1 + a * 2 -> c = (List.length t + 1) / 2 ->
  to_map_loop (p ++ t) (map (fun j => 1 + j * 2) (seq a c)) m =
  (fold_left set_pair (kv_pairs t) m,
   if Nat.odd (List.length t) then Some (IndexError "list index out of range") else None).
Proof.
  revert a p t m; induction c as [|c IH]; intros a p t m Hp Hc.
  - destruct t as [|k t]; [reflexivity|].
    cbn [List.length] in Hc.
    replace (S (List.length t) + 1) with (List.length t + 1 * 2) in Hc by lia.
    rewrite Nat.div_add in Hc by lia. lia.
  - destruct t as [|k t].
    { simpl in Hc. discriminate. }
    cbn [seq map to_map_loop].
    unfold py_index.
    rewrite nth_error_app2 by lia.
    replace (1 + a * 2 - List.length p) with 0 by lia. cbn [nth_error].
    rewrite nth_error_app2 by lia.
    replace (1 + a * 2 + 1 - List.length p) with 1 by lia.
    destruct t as [|v r]; [reflexivity|].
    cbn [nth_error].
    replace (p ++ k :: v :: r)%list with ((p ++ [k; v]) ++ r)%list
      by (rewrite <- app_assoc; reflexivity).
    rewrite (IH (S a) (p ++ [k; v])%list r (dict_set m k v)).
    + cbn [kv_pairs fold_left List.length]. rewrite Nat.odd_succ, Nat.even_succ.
      reflexivity.
    + rewrite length_app; simpl; lia.
    + cbn [List.length] in Hc.
      replace (S (S (List.length r)) + 1) with (List.length r + 1 + 1 * 2) in Hc by lia.
      rewrite Nat.div_add in Hc by lia. lia.
Qed.

(** C10: [to_map] always returns: it is the dict built from
    [(arr[1], arr[2]), (arr[3], arr[4]), ...], the body raises (an
    IndexError, caught) exactly when [arr] has even non-zero length, which
    drops the trailing key, and a key's value is the one of its last pair. *)
Theorem to_map_pairs (arr : list string) :
  to_map arr = to_map_spec arr /\
  snd (to_map_try arr) =
    (if Nat.even (List.length arr) && negb (Nat.eqb (List.length arr) 0)
     then Some (IndexError "list index out of range") else None) /\
  (forall k, dict_get (to_map arr) k =
             fold_left (last_value_for k) (kv_pairs (tl arr)) None).
Proof.
  assert (H : to_map_try arr =
              (fold_left set_pair (kv_pairs (tl arr)) [],
               if Nat.even (List.length arr) && negb (Nat.eqb (List.length arr) 0)
               then Some (IndexError "list index out of range") else None)).
  { unfold to_map_try, py_range.
    destruct arr as [|x0 t]; [reflexivity|].
    cbn [List.length tl].
    replace (S (List.length t) - 1 + 2 - 1) with (List.length t + 1) by lia.
    pose proof (to_map_loop_pairs ((List.length t + 1) / 2) 0 [x0] t [] eq_refl eq_refl)
      as E.
    cbn [app] in E. rewrite E.
    rewrite Nat.even_succ. simpl. rewrite andb_true_r. reflexivity. }
  unfold to_map, to_map_spec. rewrite H. simpl.
  split; [reflexivity|]. split; [reflexivity|].
  intro k. rewrite dict_get_fold. reflexivity.
Qed.

(** ** Spark reducer: the read loop of [SparkReducerInterface.reducer]

    The engine is abstract: reading one uri (session, destination, format
    and options fixed), [DataFrame.union], which returns a new dataframe and
    leaves its receiver unchanged, and the fixed
    [groupBy("language").agg(...).orderBy(...)] pipeline. The result is the
    dataframe handed to [writeSparkDataframe].

<<
spark = createSparkSession(..., readUris[0], ...)
dataframe = None
for readUri in readUris:
  currDataFrame = readSparkDataframe(spark, readDestination, readUri, readFormat, readOptions)
  if dataframe == None:
      dataframe = currDataFrame
  else:
      dataframe.union(currDataFrame)
dataframe = dataframe.groupBy("language").agg(...).orderBy(...)
writeSparkDataframe(..., dataframe)
>> *)
Section SparkReducer.

Variable DataFrame : Type.
Variable readSparkDataframe : string -> DataFrame.
Variable union : DataFrame -> DataFrame -> DataFrame.
Variable group_aggregate : DataFrame -> DataFrame.

Fixpoint reducer_read_loop (dataframe : option DataFrame) (readUris : list string)
    : option DataFrame :=
  match readUris with
  | [] => dataframe
  | readUri :: rest =>
      let currDataFrame := readSparkDataframe readUri in
      match dataframe with
      | None => reducer_read_loop (Some currDataFrame) rest
      | Some df =>
          let _discarded := union df currDataFrame in
          reducer_read_loop (Some df) rest
      end
  end.

Definition reducer (readUris : list string) : result DataFrame :=
  match readUris with
  | [] => Raise (IndexError "list index out of range")
  | _ =>
      match reducer_read_loop None readUris with
      | Some df => Ok (group_aggregate df)
      | None => Raise (AttributeError "'NoneType' object has no attribute 'groupBy'")
      end
  end.

Lemma reducer_read_loop_keeps (df : DataFrame) (uris : list string) :
  reducer_read_loop (Some df) uris = Some df.
Proof. induction uris as [|u uris IH]; simpl; [reflexivity | exact IH]. Qed.

(** C9: with two or more readUris, the union's result is dropped: the
    aggregated and written dataframe is computed from the first uri's
    dataframe alone, whatever the other uris and [union] are. *)
Theorem reducer_discards_union (u0 u1 : string) (rest : list string) :
  reducer (u0 :: u1 :: rest) = Ok (group_aggregate (readSparkDataframe u0)).
Proof.
  unfold reducer. cbn [reducer_read_loop].
  rewrite reducer_read_loop_keeps. reflexivity.
Qed.

End SparkReducer.

(** ** Further properties of the readers and the reducer *)

Lemma docId_loop_none_strs (ss : list string) :
  docId_loop VNone (map VStr ss) = Ok (joined_id ss).
Proof.
  destruct ss as [|s ss]; [reflexivity|].
  unfold joined_id; rewrite concat_bar_fold.
  cbn [map docId_loop]. apply docId_loop_strs.
Qed.

(** Key values that are [None] before the first set value are skipped: the
    identifier of [{k1: None, ..., kn: None, ...strs}] is that of the str
    values alone ([None] when there are none). *)
Theorem derive_docId_skips_leading_none (kvs : pydict) (n : nat) (ss : list string)
    (Hvals : map snd kvs = (repeat VNone n ++ map VStr ss)%list) :
  derive_docId (VDict kvs) = Ok (joined_id ss).
Proof.
  unfold derive_docId; simpl. rewrite Hvals, docId_loop_none_prefix.
  apply docId_loop_none_strs.
Qed.

Lemma derive_docId_skips_leading_none_witness :
  derive_docId (VDict [("a", VNone); ("b", VStr "x"); ("c", VStr "y")]) = Ok (VStr "x|y").
Proof. apply (derive_docId_skips_leading_none _ 1 ["x"; "y"]). reflexivity. Defined.

(** A non-str key value after one or more str values makes both readers
    fail over to the fallback ErrorDoc with the TypeError of ['|' + v]. *)
Theorem readers_later_non_str_key (tableName : string) (segmentNumber : Z)
    (ev : StreamEvent) (kvs : pydict) (s : string) (ss : list string)
    (v : pyval) (rest : list pyval) (item oldImage newImage : pyval) (uuid : string)
    (Hvals : map snd kvs = (map VStr (s :: ss) ++ v :: rest)%list)
    (Hv : forall t, v <> VStr t) :
  let msg := "Exception - can only concatenate str (not " ++ dq ++ type_name v
             ++ dq ++ ") to str" in
  parseDynamoDBItem tableName segmentNumber (VDict kvs) item uuid =
  mkParseDocumentResult VNone
    (PError (mkErrorDoc (VStr uuid) "DDB_ERROR" (VStr uuid) [] []
               [("keys", VDict kvs)] [("keys", VDict kvs)] msg)) "ERROR" /\
  parseRecord ev (VDict kvs) oldImage newImage uuid =
  mkParseDocumentResult VNone
    (PError (mkErrorDoc (VStr uuid) "KINESIS_ERROR" (VStr uuid) [] []
               [("sequenceNumber", sequenceNumber ev)]
               [("sequenceNumber", sequenceNumber ev)] msg)) "ERROR".
Proof.
  assert (H : derive_docId (VDict kvs) =
              Raise (TypeError ("can only concatenate str (not " ++ dq ++ type_name v
                                ++ dq ++ ") to str"))).
  { unfold derive_docId; simpl. rewrite Hvals. cbn [map app docId_loop].
    rewrite docId_loop_strs_app. simpl.
    destruct v as [| z | t | d]; try reflexivity. exfalso; exact (Hv t eq_refl). }
  unfold parseDynamoDBItem, parseDynamoDBItem_try, parseRecord, parseRecord_try.
  rewrite H. simpl. split; reflexivity.
Qed.

Lemma readers_later_non_str_key_witness :
  pdr_status (parseDynamoDBItem "tbl" 0 (VDict [("pk", VStr "A"); ("sk", VInt 7)])
                (VDict [("x", VStr "1")]) "u") = "ERROR" /\
  pdr_status (parseRecord sample_event (VDict [("pk", VStr "A"); ("sk", VInt 7)])
                VNone (VDict [("x", VStr "1")]) "u") = "ERROR".
Proof.
  destruct (readers_later_non_str_key "tbl" 0 sample_event
              [("pk", VStr "A"); ("sk", VInt 7)] "A" [] (VInt 7) []
              (VDict [("x", VStr "1")]) VNone (VDict [("x", VStr "1")]) "u"
              eq_refl ltac:(discriminate)) as [H1 H2].
  rewrite H1, H2. split; reflexivity.
Defined.

(** With a single key the identifier is that key's value, whatever its
    type: a non-empty item then gives SUCCESS with that value as document
    id and partition key (an int, a dict or [None] included). *)
Theorem parseDynamoDBItem_single_key (tableName : string) (segmentNumber : Z)
    (k : string) (v : pyval) (item : pydict) (uuid : string) (Hitem : item <> []) :
  parseDynamoDBItem tableName segmentNumber (VDict [(k, v)]) (VDict item) uuid =
  mkParseDocumentResult VNone
    (PDocument (mkDocument DocumentType_Document v "DOCUMENT" v [] (VDict item)))
    "SUCCESS".
Proof.
  unfold parseDynamoDBItem, parseDynamoDBItem_try, derive_docId. simpl.
  destruct item; [contradiction | reflexivity].
Qed.

Lemma parseDynamoDBItem_single_key_witness :
  pdr_document (parseDynamoDBItem "tbl" 0 (VDict [("pk", VInt 5)])
                  (VDict [("x", VStr "1")]) "u") =
  PDocument (mkDocument DocumentType_Document (VInt 5) "DOCUMENT" (VInt 5) []
               (VDict [("x", VStr "1")])).
Proof.
  rewrite (parseDynamoDBItem_single_key "tbl" 0 "pk" (VInt 5) [("x", VStr "1")] "u");
    [reflexivity | discriminate].
Defined.

(** An item (or newImage) without [len()], such as an int, is not treated as
    empty: [len] raises and the reader returns the fallback ErrorDoc. *)
Theorem readers_payload_without_len (tableName : string) (segmentNumber : Z)
    (ev : StreamEvent) (kvs : pydict) (ss : list string) (z : Z)
    (oldImage : pyval) (uuid : string) (Hkeys : map snd kvs = map VStr ss) :
  let msg := "Exception - object of type 'int' has no len()" in
  parseDynamoDBItem tableName segmentNumber (VDict kvs) (VInt z) uuid =
  mkParseDocumentResult VNone
    (PError (mkErrorDoc (VStr uuid) "DDB_ERROR" (VStr uuid) [] []
               [("keys", VDict kvs)] [("keys", VDict kvs)] msg)) "ERROR" /\
  parseRecord ev (VDict kvs) oldImage (VInt z) uuid =
  mkParseDocumentResult VNone
    (PError (mkErrorDoc (VStr uuid) "KINESIS_ERROR" (VStr uuid) [] []
               [("sequenceNumber", sequenceNumber ev)]
               [("sequenceNumber", sequenceNumber ev)] msg)) "ERROR".
Proof.
  unfold parseDynamoDBItem, parseDynamoDBItem_try, parseRecord, parseRecord_try.
  rewrite (derive_docId_strs kvs ss Hkeys). split; reflexivity.
Qed.

Lemma readers_payload_without_len_witness :
  pdr_status (parseDynamoDBItem "tbl" 0 (VDict [("pk", VStr "A")]) (VInt 3) "u") = "ERROR".
Proof.
  rewrite (proj1 (readers_payload_without_len "tbl" 0 sample_event [("pk", VStr "A")]
                    ["A"] 3 VNone "u" eq_refl)).
  reflexivity.
Defined.

(** With str-valued keys and a dict or [None] payload no fault is raised, so
    the value drawn from [uuid.uuid4()] never reaches the result; the table
    name and segment number never do, and of the stream event only the
    sequence number does. *)
Theorem readers_result_independent_of_uuid (t1 t2 : string) (g1 g2 : Z)
    (ev1 ev2 : StreamEvent) (kvs : pydict) (ss : list string) (item : pyval)
    (o1 o2 : pyval) (u1 u2 : string)
    (Hkeys : map snd kvs = map VStr ss)
    (Hitem : item = VNone \/ exists d, item = VDict d)
    (Hseq : sequenceNumber ev1 = sequenceNumber ev2) :
  parseDynamoDBItem t1 g1 (VDict kvs) item u1 = parseDynamoDBItem t2 g2 (VDict kvs) item u2 /\
  parseRecord ev1 (VDict kvs) o1 item u1 = parseRecord ev2 (VDict kvs) o2 item u2.
Proof.
  unfold parseDynamoDBItem, parseDynamoDBItem_try, parseRecord, parseRecord_try.
  rewrite (derive_docId_strs kvs ss Hkeys), Hseq. simpl.
  destruct Hitem as [-> | [d ->]]; simpl; [split; reflexivity|].
  destruct (Nat.leb (List.length d) 0); split; reflexivity.
Qed.

Lemma readers_result_independent_of_uuid_witness :
  parseDynamoDBItem "t1" 0 (VDict [("pk", VStr "A")]) (VDict []) "u1" =
  parseDynamoDBItem "t2" 1 (VDict [("pk", VStr "A")]) (VDict []) "u2".
Proof.
  apply (proj1 (readers_result_independent_of_uuid "t1" "t2" 0 1 sample_event sample_event
                  [("pk", VStr "A")] ["A"] (VDict []) VNone VNone "u1" "u2"
                  eq_refl (or_intror (ex_intro _ [] eq_refl)) eq_refl)).
Defined.

(** [reducer] with no readUris raises at [readUris[0]]; with any non-empty
    list it writes the aggregate of the first uri's dataframe. *)
Theorem reducer_total (DataFrame : Type) (read : string -> DataFrame)
    (union : DataFrame -> DataFrame -> DataFrame) (agg : DataFrame -> DataFrame) :
  reducer DataFrame read union agg [] = Raise (IndexError "list index out of range") /\
  (forall u rest, reducer DataFrame read union agg (u :: rest) = Ok (agg (read u))).
Proof.
  split; [reflexivity|]. intros u rest.
  unfold reducer. cbn [reducer_read_loop].
  rewrite reducer_read_loop_keeps. reflexivity.
Qed.

(** ** Spark mapper: the per-record pipeline of [SparkMapperInterface.mapper]

    Each row of the text read is one record string. The engine primitives
    are read as Spark computes them with [spark.sql.ansi.enabled] false:
    - [regexp_replace(v, "^\s+|\s+$", "")] is [java.util.regex]'s
      [replaceAll], with the matcher modelled below;
    - [split(v, regex)] is Java's [Pattern.split(v, -1)]: leftmost matches,
      alternatives tried in order, trailing empty pieces kept; both regexes
      here are alternations of literal strings;
    - [s[1]] past the end of the array is [null];
    - [header_map['k']] is [null] for a missing key, and [== lit(...)] on
      [null] is [null], which [where] drops.
    The [integer] cast and [to_timestamp] are left abstract. *)

Definition CR : ascii := "013"%char.
Definition LF : ascii := "010"%char.
Definition crlf : string := String CR (String LF EmptyString).
Definition crlfcrlf : string := crlf ++ crlf.

(** Java's [\s]. *)
Definition is_space (c : ascii) : bool :=
  let n := nat_of_ascii c in orb (Nat.eqb n 32) (andb (Nat.leb 9 n) (Nat.leb n 13)).

(** The text with its leading run of [\s] removed. *)
Fixpoint lstrip (s : string) : string :=
  match s with
  | EmptyString => EmptyString
  | String c r => if is_space c then lstrip r else s
  end.

(** The text with its trailing run of [\s] removed. *)
Fixpoint rstrip (s : string) : string :=
  match s with
  | EmptyString => EmptyString
  | String c r =>
      let r' := rstrip r in
      if andb (is_space c) (String.eqb r' EmptyString) then EmptyString else String c r'
  end.

(** *** [regexp_replace(v, "^\s+|\s+$", "")] on [java.util.regex]

    A text is a sequence of characters below U+0100 (ISO-8859-1). Of the
    line terminators of [java.util.regex] (without UNIX_LINES), [\n], [\r]
    and U+0085 lie in this alphabet; U+2028 and U+2029 do not. *)

Definition NEL : ascii := "133"%char.
Definition nel : string := String NEL EmptyString.

(** A position of the matcher: the character before it ([None] at index 0,
    the start of the region) and the input from it on. *)
Definition rx_pos : Type := (option ascii * string)%type.

(** [$] without MULTILINE ([Pattern.Dollar]): at the end of the input,
    before a final [\r\n], or before a final line terminator ([\n] not
    preceded by [\r], [\r], U+0085). *)
Definition dollar (prev : option ascii) (t : string) : bool :=
  match t with
  | EmptyString => true
  | String ch EmptyString =>
      if Ascii.eqb ch LF
      then negb (match prev with Some p => Ascii.eqb p CR | None => false end)
      else Ascii.eqb ch CR || Ascii.eqb ch NEL
  | String ch (String ch2 EmptyString) => Ascii.eqb ch CR && Ascii.eqb ch2 LF
  | _ => false
  end.

(** Greedy [\s*] then [$]: the longest run is tried first, and the
    quantifier backs off one character at a time. The position after the
    match. *)
Fixpoint spaces_dollar (prev : option ascii) (t : string) : option rx_pos :=
  match
    match t with
    | String c r => if is_space c then spaces_dollar (Some c) r else None
    | EmptyString => None
    end
  with
  | Some p => Some p
  | None => if dollar prev t then Some (prev, t) else None
  end.

(** Greedy [\s*] with nothing after it: the position after the whole run. *)
Fixpoint spaces (prev : option ascii) (t : string) : rx_pos :=
  match t with
  | String c r => if is_space c then spaces (Some c) r else (prev, t)
  | EmptyString => (prev, t)
  end.

(** The alternative [^\s+]. *)
Definition alt_begin (prev : option ascii) (t : string) : option rx_pos :=
  match prev, t with
  | None, String c r => if is_space c then Some (spaces (Some c) r) else None
  | _, _ => None
  end.

(** The alternative [\s+$]. *)
Definition alt_end (prev : option ascii) (t : string) : option rx_pos :=
  match t with
  | String c r => if is_space c then spaces_dollar (Some c) r else None
  | EmptyString => None
  end.

(** [Pattern.Branch]: the alternatives in order. *)
Definition match_at (prev : option ascii) (t : string) : option rx_pos :=
  match alt_begin prev t with
  | Some p => Some p
  | None => alt_end prev t
  end.

(** [Matcher.find] from a position: the text skipped before the match and
    the position after it. *)
Fixpoint search (prev : option ascii) (t : string) : option (string * rx_pos) :=
  match match_at prev t with
  | Some p => Some (EmptyString, p)
  | None =>
      match t with
      | EmptyString => None
      | String c r =>
          match search (Some c) r with
          | Some (skipped, p) => Some (String c skipped, p)
          | None => None
          end
      end
  end.

(** [Matcher.replaceAll("")]: [appendReplacement] per match, then
    [appendTail]. Every match takes at least one character, so [fuel]
    above the length of the input is never exhausted. *)
Fixpoint replace_go (fuel : nat) (prev : option ascii) (t : string) : string :=
  match fuel with
  | O => t
  | S f =>
      match search prev t with
      | Some (skipped, (prev', rest)) => skipped ++ replace_go f prev' rest
      | None => t
      end
  end.

(** [regexp_replace(df.value, r"^\s+|\s+$", "")] *)
Definition trim (s : string) : string := replace_go (S (String.length s)) None s.

(** The first of the literal alternatives that matches at the start of [s]. *)
Definition first_prefix (seps : list string) (s : string) : option string :=
  find (fun sep => String.prefix sep s) seps.

(** The scan of [Pattern.split]: [skip] counts the characters of a matched
    separator still to pass over, [cur] is the piece being built. *)
Fixpoint split_go (seps : list string) (skip : nat) (s cur : string) : list string :=
  match s with
  | EmptyString => [cur]
  | String c r =>
      match skip with
      | S k => split_go seps k r cur
      | O =>
          match first_prefix seps s with
          | Some sep => cur :: split_go seps (String.length sep - 1) r EmptyString
          | None => split_go seps 0 r (cur ++ String c EmptyString)
          end
      end
  end.

(** [split(s, <alternation of seps>)] *)
Definition split_lits (seps : list string) (s : string) : list string :=
  split_go seps 0 s EmptyString.

(** The regex [': |\r\n'] used on the header. *)
Definition header_seps : list string := [": "; crlf].

Section MapperPipeline.

Variable Timestamp : Type.
(** [.cast("integer")] and [to_timestamp], on a nullable string. *)
Variable cast_integer : option string -> option Z.
Variable to_timestamp : option string -> option Timestamp.

(** The columns selected after [.drop('warcFileName')]. *)
Record MapperRow := mkMapperRow {
  contentLength : option Z;
  warcDate : option Timestamp;
  warcRecordId : option string;
  contentType : option string;
  warcType : option string;
  warcRefersTo : option string;
  language : option string;
  blockDigest : option string;
  url : option string;
  docId : option string;
  partitionKey : option string;
  docText : option string }.

(** The [select] of the header map and payload, then
    [.where(col('warcType') == lit('conversion'))]. *)
Definition select_row (header_map : list (string * string)) (payload : option string)
    : option MapperRow :=
  let get := dict_get header_map in
  match get "WARC-Type" with
  | Some t =>
      if String.eqb t "conversion" then
        Some (mkMapperRow (cast_integer (get "Content-Length"))
                (to_timestamp (get "WARC-Date"))
                (get "WARC-Record-ID") (get "Content-Type") (get "WARC-Type")
                (get "WARC-Refers-To") (get "WARC-Identified-Content-Language")
                (get "WARC-Block-Digest") (get "WARC-Target-URI")
                (get "WARC-Target-URI") (get "WARC-Target-URI") payload)
      else None
  | None => None
  end.

(** One input record through the mapper: [None] when the row is filtered
    out. *)
Definition mapper_row (value : string) : option MapperRow :=
  let v := trim value in
  let s := split_lits [crlfcrlf] v in
  let header := hd EmptyString s in
  let payload := nth_error s 1 in
  let h := split_lits header_seps header in
  select_row (to_map h) payload.

End MapperPipeline.

(** A WARC header: a first line, then [CRLF k ": " v] per header line. *)
Fixpoint header_lines (pairs : list (string * string)) : string :=
  match pairs with
  | [] => EmptyString
  | (k, v) :: ps => crlf ++ k ++ ": " ++ v ++ header_lines ps
  end.

Definition render_header (line0 : string) (pairs : list (string * string)) : string :=
  line0 ++ header_lines pairs.

Example split_ex1 :
  split_lits header_seps ("WARC/1.0" ++ crlf ++ "WARC-Type: conversion" ++ crlf
                          ++ "WARC-Date: 2023-12-12T01:40:15Z")
  = ["WARC/1.0"; "WARC-Type"; "conversion"; "WARC-Date"; "2023-12-12T01:40:15Z"].
Proof. reflexivity. Qed.

Example split_ex_trailing : split_lits [crlfcrlf] ("a" ++ crlfcrlf) = ["a"; ""].
Proof. reflexivity. Qed.

Example split_ex_overlap :
  split_lits [crlfcrlf] ("a" ++ crlf ++ crlfcrlf) = ["a"; crlf].
Proof. reflexivity. Qed.

Example trim_ex : trim (" " ++ crlf ++ "a b" ++ crlf ++ " ") = "a b".
Proof. reflexivity. Qed.

(** Java's [$] also matches before a final U+0085, so the whitespace before
    it goes and the U+0085 stays. *)
Example trim_ex_nel : trim (" a " ++ nel) = "a" ++ nel.
Proof. reflexivity. Qed.

Example trim_ex_nel_inner : trim ("a" ++ nel ++ " ") = "a" ++ nel.
Proof. reflexivity. Qed.

(** *** Lemmas on the split scan *)

Fixpoint nomatch (seps : list string) (p t : string) : Prop :=
  match p with
  | EmptyString => True
  | String c p' => first_prefix seps (String c (p' ++ t)) = None /\ nomatch seps p' t
  end.

Lemma split_go_skip (seps : list string) (x rest cur : string) :
  split_go seps (String.length x) (x ++ rest) cur = split_go seps 0 rest cur.
Proof. induction x as [|c x IH]; simpl; [reflexivity | exact IH]. Qed.

Lemma split_go_nomatch (seps : list string) (p t cur : string) :
  nomatch seps p t -> split_go seps 0 (p ++ t) cur = split_go seps 0 t (cur ++ p).
Proof.
  revert cur; induction p as [|c p IH]; intros cur H; simpl.
  - rewrite str_app_nil. reflexivity.
  - destruct H as [H1 H2]. rewrite H1, (IH _ H2), <- str_app_assoc. reflexivity.
Qed.

Lemma split_go_sep (seps : list string) (sep r cur : string) :
  sep <> EmptyString -> first_prefix seps (sep ++ r) = Some sep ->
  split_go seps 0 (sep ++ r) cur = cur :: split_go seps 0 r EmptyString.
Proof.
  destruct sep as [|c x]; intros Hne H; [contradiction|].
  simpl in H |- *. rewrite H. simpl. rewrite Nat.sub_0_r, split_go_skip. reflexivity.
Qed.

Lemma split_go_piece (seps : list string) (p sep r cur : string) :
  nomatch seps p (sep ++ r) -> sep <> EmptyString ->
  first_prefix seps (sep ++ r) = Some sep ->
  split_go seps 0 (p ++ sep ++ r) cur = (cur ++ p) :: split_go seps 0 r EmptyString.
Proof.
  intros H1 H2 H3. rewrite (split_go_nomatch _ _ _ _ H1). apply split_go_sep; assumption.
Qed.

Lemma split_go_last (seps : list string) (p cur : string) :
  nomatch seps p EmptyString -> split_go seps 0 p cur = [cur ++ p].
Proof.
  intro H. pose proof (split_go_nomatch seps p EmptyString cur H) as E.
  rewrite str_app_nil in E. rewrite E. reflexivity.
Qed.

(** *** Header pieces without [CR] and without [": "] *)

Definition starts_space (s : string) : bool :=
  match s with
  | String c _ => Ascii.eqb c " "
  | EmptyString => false
  end.

Fixpoint clean (s : string) : bool :=
  match s with
  | EmptyString => true
  | String c r =>
      negb (Ascii.eqb c CR) && (negb (Ascii.eqb c ":") || negb (starts_space r)) && clean r
  end.

Lemma prefix_cons (x y : ascii) (xs ys : string) :
  String.prefix (String x xs) (String y ys) =
  if ascii_dec x y then String.prefix xs ys else false.
Proof. reflexivity. Qed.

Lemma clean_nomatch_header (p t : string) :
  clean p = true -> starts_space t = false -> nomatch header_seps p t.
Proof.
  induction p as [|c p IH]; intros Hc Ht; [exact I|].
  cbn [clean] in Hc. apply andb_prop in Hc as [Hc Hp]. apply andb_prop in Hc as [Hcr Hcol].
  cbn [nomatch]. split; [|exact (IH Hp Ht)].
  unfold first_prefix, header_seps, crlf; cbn [find].
  rewrite !prefix_cons.
  destruct (ascii_dec ":" c) as [<-|Hn1].
  - assert (Hsp : String.prefix " " (p ++ t) = false).
    { destruct p as [|c' p'].
      - destruct t as [|c' t']; [reflexivity|]. cbn [append]. rewrite prefix_cons.
        cbn [starts_space] in Ht.
        destruct (ascii_dec " " c') as [<-|]; [discriminate | reflexivity].
      - cbn [append]. rewrite prefix_cons. cbn [starts_space] in Hcol.
        destruct (ascii_dec " " c') as [<-|]; [discriminate | reflexivity]. }
    rewrite Hsp. destruct (ascii_dec CR ":") as [E|]; [discriminate E | reflexivity].
  - destruct (ascii_dec CR c) as [<-|]; [discriminate | reflexivity].
Qed.

Lemma no_cr_nomatch_crlfcrlf (p t : string) :
  clean p = true -> nomatch [crlfcrlf] p t.
Proof.
  induction p as [|c p IH]; intro Hc; [exact I|].
  cbn [clean] in Hc. apply andb_prop in Hc as [Hc Hp]. apply andb_prop in Hc as [Hcr _].
  cbn [nomatch]. split; [|exact (IH Hp)].
  unfold first_prefix, crlfcrlf, crlf; cbn [find append].
  rewrite prefix_cons.
  destruct (ascii_dec CR c) as [<-|]; [discriminate | reflexivity].
Qed.

Lemma nomatch_app (seps : list string) (a b t : string) :
  nomatch seps a (b ++ t) -> nomatch seps b t -> nomatch seps (a ++ b) t.
Proof.
  induction a as [|c a IH]; intros Ha Hb; simpl; [exact Hb|].
  destruct Ha as [H1 H2]. rewrite <- str_app_assoc. split; [exact H1 | exact (IH H2 Hb)].
Qed.

Lemma clean_not_starts_cr (k r : string) :
  clean k = true ->
  first_prefix [crlfcrlf] (String CR (String LF (k ++ ": " ++ r))) = None.
Proof.
  intro Hk. unfold first_prefix, crlfcrlf, crlf; cbn [find append].
  rewrite !prefix_cons.
  destruct (ascii_dec CR CR) as [_|n]; [|contradiction n; reflexivity].
  destruct (ascii_dec LF LF) as [_|n]; [|contradiction n; reflexivity].
  destruct k as [|c k'].
  - cbn [append]. rewrite prefix_cons.
    destruct (ascii_dec CR ":") as [E|]; [discriminate E | reflexivity].
  - cbn [append]. rewrite prefix_cons.
    cbn [clean] in Hk. apply andb_prop in Hk as [Hk _]. apply andb_prop in Hk as [Hcr _].
    destruct (ascii_dec CR c) as [<-|]; [discriminate | reflexivity].
Qed.

Definition clean_pair (kv : string * string) : bool := clean (fst kv) && clean (snd kv).

Lemma header_lines_nomatch_crlfcrlf (pairs : list (string * string)) (t : string) :
  Forall (fun kv => clean_pair kv = true) pairs -> nomatch [crlfcrlf] (header_lines pairs) t.
Proof.
  induction pairs as [|[k v] ps IH]; intro H; simpl; [exact I|].
  inversion H as [|? ? Hkv Hps]; subst. unfold clean_pair in Hkv; simpl in Hkv.
  apply andb_prop in Hkv as [Hk Hv].
  split; [|split].
  - rewrite <- !str_app_assoc. apply clean_not_starts_cr; exact Hk.
  - unfold first_prefix, crlfcrlf, crlf; simpl. reflexivity.
  - apply nomatch_app; [apply no_cr_nomatch_crlfcrlf; exact Hk|].
    apply (nomatch_app _ ": " _ t); [simpl; repeat split|].
    apply nomatch_app; [apply no_cr_nomatch_crlfcrlf; exact Hv | exact (IH Hps)].
Qed.

Definition flat_pairs (pairs : list (string * string)) : list string :=
  flat_map (fun kv => [fst kv; snd kv]) pairs.

Lemma kv_pairs_flat (pairs : list (string * string)) : kv_pairs (flat_pairs pairs) = pairs.
Proof. induction pairs as [|[k v] ps IH]; simpl; [reflexivity | now rewrite IH]. Qed.

Lemma first_prefix_header_crlf (r : string) :
  first_prefix header_seps (crlf ++ r) = Some crlf.
Proof. destruct r; reflexivity. Qed.

Lemma first_prefix_header_colon (r : string) :
  first_prefix header_seps (": " ++ r) = Some ": ".
Proof. destruct r; reflexivity. Qed.

Lemma split_header_lines (pairs : list (string * string)) (p cur : string) :
  clean p = true -> Forall (fun kv => clean_pair kv = true) pairs ->
  split_go header_seps 0 (p ++ header_lines pairs) cur = (cur ++ p) :: flat_pairs pairs.
Proof.
  revert p cur; induction pairs as [|[k v] ps IH]; intros p cur Hp H.
  - cbn [header_lines]. rewrite str_app_nil.
    apply split_go_last, clean_nomatch_header; [exact Hp | reflexivity].
  - inversion H as [|? ? Hkv Hps]; subst. unfold clean_pair in Hkv; cbn [fst snd] in Hkv.
    apply andb_prop in Hkv as [Hk Hv].
    cbn [header_lines].
    rewrite split_go_piece;
      [| apply clean_nomatch_header; [exact Hp | reflexivity]
       | discriminate | apply first_prefix_header_crlf].
    rewrite split_go_piece;
      [| apply clean_nomatch_header; [exact Hk | reflexivity]
       | discriminate | apply first_prefix_header_colon].
    rewrite (IH v EmptyString Hv Hps). reflexivity.
Qed.

Lemma to_map_fold (arr : list string) :
  to_map arr = fold_left set_pair (kv_pairs (tl arr)) [].
Proof.
  unfold to_map, to_map_try, py_range.
  destruct arr as [|x0 t]; [reflexivity|].
  cbn [List.length tl].
  replace (S (List.length t) - 1 + 2 - 1) with (List.length t + 1) by lia.
  pose proof (to_map_loop_pairs ((List.length t + 1) / 2) 0 [x0] t [] eq_refl eq_refl)
    as E.
  cbn [app] in E. rewrite E. reflexivity.
Qed.

Lemma to_map_render_header (line0 : string) (pairs : list (string * string)) :
  clean line0 = true -> Forall (fun kv => clean_pair kv = true) pairs ->
  to_map (split_lits header_seps (render_header line0 pairs)) = fold_left set_pair pairs [].
Proof.
  intros H0 Hpairs.
  unfold split_lits, render_header. rewrite split_header_lines by assumption.
  rewrite to_map_fold. cbn [tl]. rewrite kv_pairs_flat. reflexivity.
Qed.

(** The header parse of the mapper, [to_map(split(header, ': |\r\n'))],
    recovers the header lines of a rendered WARC header: the first line is
    ignored, every [k: v] line sets [k] to [v], a repeated key keeping its
    last value. It needs no piece to contain [CR] or [": "]. *)
Theorem header_map_of_rendered_header (line0 : string) (pairs : list (string * string))
    (H0 : clean line0 = true) (Hpairs : Forall (fun kv => clean_pair kv = true) pairs) :
  to_map (split_lits header_seps (render_header line0 pairs)) = fold_left set_pair pairs [] /\
  (forall k, dict_get (to_map (split_lits header_seps (render_header line0 pairs))) k =
             fold_left (last_value_for k) pairs None).
Proof.
  pose proof (to_map_render_header line0 pairs H0 Hpairs) as E.
  split; [exact E|]. intro k. rewrite E, dict_get_fold. reflexivity.
Qed.

Lemma header_map_of_rendered_header_witness :
  to_map (split_lits header_seps
            (render_header "WARC/1.0" [("WARC-Type", "conversion");
                                       ("WARC-Date", "2023-12-12T01:40:15Z")])) =
  [("WARC-Type", "conversion"); ("WARC-Date", "2023-12-12T01:40:15Z")].
Proof.
  apply (proj1 (header_map_of_rendered_header "WARC/1.0"
                  [("WARC-Type", "conversion"); ("WARC-Date", "2023-12-12T01:40:15Z")]
                  eq_refl ltac:(repeat constructor))).
Defined.

(** *** The record split on [CRLF CRLF] *)

(** The position of the first occurrence of [sep] in [s]. *)
Fixpoint find_sep (sep s : string) {struct s} : option nat :=
  if String.prefix sep s then Some 0
  else match s with
       | EmptyString => None
       | String _ r => option_map S (find_sep sep r)
       end.

Lemma str_length_app (a b : string) :
  String.length (a ++ b) = String.length a + String.length b.
Proof. induction a as [|c a IH]; simpl; [reflexivity | now rewrite IH]. Qed.

Lemma prefix_app_long (a x y : string) :
  String.length a <= String.length x -> String.prefix a (x ++ y) = String.prefix a x.
Proof.
  revert x; induction a as [|c a IH]; intros x Hl.
  - destruct (x ++ y), x; reflexivity.
  - destruct x as [|c' x]; [simpl in Hl; lia|].
    cbn [append]. rewrite !prefix_cons.
    destruct (ascii_dec c c'); [apply IH; simpl in Hl; lia | reflexivity].
Qed.

Lemma find_sep_none_nomatch (sep b : string) :
  find_sep sep b = None -> nomatch [sep] b EmptyString.
Proof.
  induction b as [|c b IH]; intro H; [exact I|].
  cbn [find_sep] in H.
  destruct (String.prefix sep (String c b)) eqn:Ep; [discriminate|].
  destruct (find_sep sep b) eqn:Ef; [discriminate|].
  cbn [nomatch]. rewrite str_app_nil. unfold first_prefix; cbn [find].
  rewrite Ep. split; [reflexivity | exact (IH eq_refl)].
Qed.

Lemma find_sep_end_nomatch (sep b t : string) :
  find_sep sep (b ++ sep) = Some (String.length b) -> nomatch [sep] b (sep ++ t).
Proof.
  induction b as [|c b IH]; intro H; [exact I|].
  cbn [append find_sep String.length] in H.
  destruct (String.prefix sep (String c (b ++ sep))) eqn:Ep; [discriminate|].
  destruct (find_sep sep (b ++ sep)) as [n|] eqn:Ef; [|discriminate].
  cbn [option_map] in H. injection H as ->.
  cbn [nomatch]. split; [|exact (IH eq_refl)].
  unfold first_prefix; cbn [find].
  rewrite str_app_assoc.
  change (String c ((b ++ sep) ++ t)) with (String c (b ++ sep) ++ t).
  rewrite prefix_app_long; [rewrite Ep; reflexivity|].
  cbn [String.length]. rewrite str_length_app. lia.
Qed.

Lemma first_prefix_crlfcrlf (r : string) :
  first_prefix [crlfcrlf] (crlfcrlf ++ r) = Some crlfcrlf.
Proof. destruct r; reflexivity. Qed.

Lemma render_header_nomatch_crlfcrlf (line0 : string) (pairs : list (string * string))
    (t : string) :
  clean line0 = true -> Forall (fun kv => clean_pair kv = true) pairs ->
  nomatch [crlfcrlf] (render_header line0 pairs) t.
Proof.
  intros H0 Hp. unfold render_header. apply nomatch_app.
  - apply no_cr_nomatch_crlfcrlf; exact H0.
  - apply header_lines_nomatch_crlfcrlf; exact Hp.
Qed.

Lemma mapper_row_record (Timestamp : Type) (cast_integer : option string -> option Z)
    (to_timestamp : option string -> option Timestamp) (value line0 b1 tail : string)
    (pairs : list (string * string))
    (H0 : clean line0 = true) (Hpairs : Forall (fun kv => clean_pair kv = true) pairs)
    (Htrim : trim value = render_header line0 pairs ++ crlfcrlf ++ b1 ++ tail)
    (Hbody : (tail = EmptyString /\ find_sep crlfcrlf b1 = None) \/
             (exists t2, tail = crlfcrlf ++ t2 /\
                         find_sep crlfcrlf (b1 ++ crlfcrlf) = Some (String.length b1))) :
  mapper_row Timestamp cast_integer to_timestamp value =
  select_row Timestamp cast_integer to_timestamp (fold_left set_pair pairs []) (Some b1).
Proof.
  assert (Hs : exists rest, split_go [crlfcrlf] 0 (b1 ++ tail) EmptyString = b1 :: rest).
  { destruct Hbody as [[-> Hf] | [t2 [-> Hf]]].
    - exists []. rewrite str_app_nil.
      apply split_go_last, find_sep_none_nomatch; exact Hf.
    - eexists. rewrite split_go_piece;
        [reflexivity | apply find_sep_end_nomatch; exact Hf
         | discriminate | apply first_prefix_crlfcrlf]. }
  destruct Hs as [rest Hs].
  assert (Hsplit : split_lits [crlfcrlf] (trim value) =
                   render_header line0 pairs :: b1 :: rest).
  { unfold split_lits. rewrite Htrim.
    rewrite split_go_piece;
      [| apply render_header_nomatch_crlfcrlf; assumption
       | discriminate | apply first_prefix_crlfcrlf].
    rewrite Hs. reflexivity. }
  unfold mapper_row. cbv zeta. rewrite Hsplit. cbn [hd nth_error].
  rewrite to_map_render_header by assumption. reflexivity.
Qed.

(** A WARC record (after the trim) made of a header, [CRLF CRLF] and a body
    [b1], optionally followed by another [CRLF CRLF] and more text, goes
    through the mapper as follows: the header lines give the header map;
    the row is kept exactly when the last [WARC-Type] line says
    [conversion]; [docId], [partitionKey] and [url] are all the last
    [WARC-Target-URI] value; [docText] is [b1], any text after a second
    [CRLF CRLF] being dropped. *)
Theorem mapper_row_of_warc_record (Timestamp : Type)
    (cast_integer : option string -> option Z)
    (to_timestamp : option string -> option Timestamp) (value line0 b1 tail : string)
    (pairs : list (string * string))
    (H0 : clean line0 = true) (Hpairs : Forall (fun kv => clean_pair kv = true) pairs)
    (Htrim : trim value = render_header line0 pairs ++ crlfcrlf ++ b1 ++ tail)
    (Hbody : (tail = EmptyString /\ find_sep crlfcrlf b1 = None) \/
             (exists t2, tail = crlfcrlf ++ t2 /\
                         find_sep crlfcrlf (b1 ++ crlfcrlf) = Some (String.length b1))) :
  let row := mapper_row Timestamp cast_integer to_timestamp value in
  row = select_row Timestamp cast_integer to_timestamp (fold_left set_pair pairs []) (Some b1) /\
  (row <> None <-> fold_left (last_value_for "WARC-Type") pairs None = Some "conversion") /\
  (forall r, row = Some r ->
     docId _ r = fold_left (last_value_for "WARC-Target-URI") pairs None /\
     partitionKey _ r = docId _ r /\ url _ r = docId _ r /\ docText _ r = Some b1).
Proof.
  cbv zeta.
  rewrite (mapper_row_record Timestamp cast_integer to_timestamp value line0 b1 tail pairs
             H0 Hpairs Htrim Hbody).
  unfold select_row. rewrite !dict_get_fold. cbn [dict_get].
  destruct (fold_left (last_value_for "WARC-Type") pairs None) as [t|].
  - destruct (String.eqb_spec t "conversion") as [->|Hne].
    + split; [reflexivity|]. split; [split; [reflexivity | discriminate]|].
      intros r Hr. injection Hr as <-. cbn. repeat split.
    + split; [reflexivity|]. split.
      * split; [contradiction | intro E; injection E as E; contradiction].
      * discriminate.
  - split; [reflexivity|]. split.
    + split; [contradiction | discriminate].
    + discriminate.
Qed.

Definition sample_record : string :=
  " " ++ crlf ++ "WARC/1.0" ++ crlf ++ "WARC-Type: conversion" ++ crlf
  ++ "WARC-Target-URI: http://example.com/a" ++ crlfcrlf ++ "hello world" ++ crlf.

Lemma mapper_row_of_warc_record_witness :
  mapper_row string (fun _ => None) (fun x => x) sample_record =
  select_row string (fun _ => None) (fun x => x)
    [("WARC-Type", "conversion"); ("WARC-Target-URI", "http://example.com/a")]
    (Some "hello world").
Proof.
  apply (proj1 (mapper_row_of_warc_record string (fun _ => None) (fun x => x) sample_record
                  "WARC/1.0" "hello world" EmptyString
                  [("WARC-Type", "conversion"); ("WARC-Target-URI", "http://example.com/a")]
                  eq_refl ltac:(repeat constructor) eq_refl
                  (or_introl (conj eq_refl eq_refl)))).
Defined.

Example mapper_row_sample_text :
  option_map (docText string) (mapper_row string (fun _ => None) (fun x => x) sample_record)
  = Some (Some "hello world").
Proof. reflexivity. Qed.

Example mapper_row_nel_text :
  option_map (docText string)
    (mapper_row string (fun _ => None) (fun x => x)
       ("WARC/1.0" ++ crlf ++ "WARC-Type: conversion" ++ crlfcrlf ++ "hi " ++ nel))
  = Some (Some ("hi" ++ nel)).
Proof. reflexivity. Qed.

Example mapper_row_truncated_text :
  option_map (docText string)
    (mapper_row string (fun _ => None) (fun x => x)
       ("WARC/1.0" ++ crlf ++ "WARC-Type: conversion" ++ crlfcrlf ++ "p1" ++ crlfcrlf ++ "p2"))
  = Some (Some "p1").
Proof. reflexivity. Qed.

(** *** The trim *)

Fixpoint all_space (s : string) : bool :=
  match s with
  | EmptyString => true
  | String c r => is_space c && all_space r
  end.

Fixpoint last_nonspace (s : string) : bool :=
  match s with
  | EmptyString => true
  | String c r =>
      match r with
      | EmptyString => negb (is_space c)
      | _ => last_nonspace r
      end
  end.

(** Neither the first nor the last character is whitespace. *)
Definition edge_nonspace (s : string) : bool :=
  match s with
  | EmptyString => true
  | String c _ => negb (is_space c) && last_nonspace s
  end.

(** What is left after the leading run is removed ends where [\s+$] can
    end: at the end of the input or before a final U+0085. *)
Definition end_ok (t : string) : bool :=
  match t with
  | EmptyString => true
  | String c EmptyString => Ascii.eqb c NEL
  | _ => false
  end.

(** The result of the [\s+$] matches and [appendTail] from a position where
    [^\s+] cannot match. *)
Fixpoint strip_end (t : string) : string :=
  match t with
  | EmptyString => EmptyString
  | String c r =>
      if is_space c && end_ok (lstrip r) then lstrip r else String c (strip_end r)
  end.

Lemma lstrip_space_prefix (lead x : string) :
  all_space lead = true -> lstrip (lead ++ x) = lstrip x.
Proof.
  induction lead as [|c lead IH]; intro H; [reflexivity|].
  cbn [all_space] in H. apply andb_prop in H as [Hc Hl].
  cbn [append lstrip]. rewrite Hc. exact (IH Hl).
Qed.

Lemma lstrip_all_space (t : string) : all_space t = true -> lstrip t = EmptyString.
Proof.
  intro H. pose proof (lstrip_space_prefix t EmptyString H) as E.
  rewrite str_app_nil in E. exact E.
Qed.

Lemma rstrip_all_space (t : string) : all_space t = true -> rstrip t = EmptyString.
Proof.
  induction t as [|c t IH]; intro H; [reflexivity|].
  cbn [all_space] in H. apply andb_prop in H as [Hc Ht].
  cbn [rstrip]. rewrite (IH Ht), Hc. reflexivity.
Qed.

Lemma rstrip_space_suffix (s trail : string) :
  s <> EmptyString -> last_nonspace s = true -> all_space trail = true ->
  rstrip (s ++ trail) = s.
Proof.
  induction s as [|c r IH]; intros Hne Hl Ht; [contradiction|].
  cbn [append rstrip].
  destruct r as [|c' r'].
  - cbn [last_nonspace] in Hl. cbn [append]. rewrite (rstrip_all_space _ Ht).
    apply negb_true_iff in Hl. rewrite Hl. reflexivity.
  - cbn [last_nonspace] in Hl.
    rewrite (IH ltac:(discriminate) Hl Ht). rewrite andb_false_r. reflexivity.
Qed.

Lemma not_space_CR (c : ascii) : is_space c = false -> Ascii.eqb c CR = false.
Proof.
  intro H. destruct (Ascii.eqb c CR) eqn:E; [|reflexivity].
  apply Ascii.eqb_eq in E. subst c. cbv in H. discriminate H.
Qed.

Lemma not_space_LF (c : ascii) : is_space c = false -> Ascii.eqb c LF = false.
Proof.
  intro H. destruct (Ascii.eqb c LF) eqn:E; [|reflexivity].
  apply Ascii.eqb_eq in E. subst c. cbv in H. discriminate H.
Qed.

Lemma spaces_snd (prev : option ascii) (t : string) : snd (spaces prev t) = lstrip t.
Proof.
  revert prev; induction t as [|c r IH]; intro prev; [reflexivity|].
  cbn [spaces lstrip]. destruct (is_space c); [apply IH | reflexivity].
Qed.

Lemma spaces_fst (prev : option ascii) (t : string) :
  prev <> None -> fst (spaces prev t) <> None.
Proof.
  revert prev; induction t as [|c r IH]; intros prev H; [exact H|].
  cbn [spaces]. destruct (is_space c); [apply IH; discriminate | exact H].
Qed.

(** The back-off of [\s*$] only succeeds at the end of the run. *)
Lemma spaces_dollar_spec (prev : option ascii) (t : string) :
  spaces_dollar prev t = if end_ok (lstrip t) then Some (spaces prev t) else None.
Proof.
  revert prev; induction t as [|c r IH]; intro prev; [reflexivity|].
  cbn [spaces_dollar lstrip spaces]. destruct (is_space c) eqn:Hc.
  - rewrite IH. destruct (end_ok (lstrip r)) eqn:He; [reflexivity|].
    destruct r as [|d [|e r']]; [discriminate He | |reflexivity].
    unfold dollar. destruct (Ascii.eqb d LF) eqn:Hd.
    + apply Ascii.eqb_eq in Hd. subst d. discriminate He.
    + rewrite andb_false_r. reflexivity.
  - assert (Hd : dollar prev (String c r) = end_ok (String c r)).
    { destruct r as [|d [|e r']]; unfold dollar, end_ok.
      - rewrite (not_space_LF c Hc), (not_space_CR c Hc). reflexivity.
      - rewrite (not_space_CR c Hc). reflexivity.
      - reflexivity. }
    rewrite Hd. reflexivity.
Qed.

Lemma replace_go_end_ok (f : nat) (prev : option ascii) (u : string) :
  prev <> None -> end_ok u = true -> replace_go f prev u = u.
Proof.
  intros Hp Hu. destruct f as [|f]; [reflexivity|].
  destruct u as [|x [|y z]]; [destruct prev; reflexivity | | discriminate Hu].
  cbn [end_ok] in Hu. apply Ascii.eqb_eq in Hu. subst x.
  destruct prev as [p|]; [reflexivity | contradiction].
Qed.

(** Away from index 0 the replacement is [strip_end]. *)
Lemma replace_go_strip_end (t : string) (prev : option ascii) (f : nat) :
  alt_begin prev t = None -> replace_go (S f) prev t = strip_end t.
Proof.
  revert prev; induction t as [|c r IH]; intros prev Hb; [destruct prev; reflexivity|].
  cbn [replace_go search]. unfold match_at. rewrite Hb. unfold alt_end.
  rewrite spaces_dollar_spec. cbn [strip_end].
  assert (Hnext : replace_go (S f) prev (String c r) = String c (strip_end r) ->
                  String c (strip_end r) = String c (strip_end r)) by (intros; reflexivity).
  destruct (is_space c) eqn:Hc; [destruct (end_ok (lstrip r)) eqn:He|]; cbn [andb].
  - destruct (spaces (Some c) r) as [p' rest] eqn:Es.
    pose proof (spaces_snd (Some c) r) as Hs. rewrite Es in Hs. cbn [snd] in Hs.
    pose proof (spaces_fst (Some c) r ltac:(discriminate)) as Hf. rewrite Es in Hf.
    cbn [fst] in Hf. subst rest. cbn [append].
    apply replace_go_end_ok; assumption.
  - rewrite <- (IH (Some c) eq_refl). cbn [replace_go].
    destruct (search (Some c) r) as [[sk [p' rest]]|]; reflexivity.
  - rewrite <- (IH (Some c) eq_refl). cbn [replace_go].
    destruct (search (Some c) r) as [[sk [p' rest]]|]; reflexivity.
Qed.

Lemma trim_strip_end (s : string) : trim s = strip_end (lstrip s).
Proof.
  unfold trim. destruct s as [|c r]; [reflexivity|].
  cbn [String.length]. destruct (is_space c) eqn:Hc.
  - change (replace_go (S (S (String.length r))) None (String c r)) with
      (match search None (String c r) with
       | Some (skipped, (prev', rest)) => skipped ++ replace_go (S (String.length r)) prev' rest
       | None => String c r
       end).
    cbn [search]. unfold match_at, alt_begin. rewrite Hc. cbv beta iota.
    destruct (spaces (Some c) r) as [p' rest] eqn:Es.
    pose proof (spaces_snd (Some c) r) as Hs. rewrite Es in Hs. cbn [snd] in Hs.
    pose proof (spaces_fst (Some c) r ltac:(discriminate)) as Hf. rewrite Es in Hf.
    cbn [fst] in Hf. subst rest. cbn [append lstrip]. rewrite Hc.
    apply replace_go_strip_end. destruct p'; [reflexivity | contradiction].
  - cbn [lstrip]. rewrite Hc. apply replace_go_strip_end.
    cbn [alt_begin]. rewrite Hc. reflexivity.
Qed.

Lemma end_ok_lstrip_nel (u : string) : end_ok (lstrip (u ++ nel)) = all_space u.
Proof.
  induction u as [|c u IH]; [reflexivity|].
  cbn [append lstrip all_space]. destruct (is_space c); cbn [andb]; [exact IH|].
  destruct u; reflexivity.
Qed.

Lemma rstrip_eqb_empty (u : string) : String.eqb (rstrip u) EmptyString = all_space u.
Proof.
  induction u as [|c u IH]; [reflexivity|].
  cbn [rstrip all_space]. rewrite IH.
  destruct (is_space c), (all_space u); reflexivity.
Qed.

Lemma strip_end_nel (u : string) : strip_end (u ++ nel) = rstrip u ++ nel.
Proof.
  induction u as [|c u IH]; [reflexivity|].
  cbn [append strip_end rstrip]. rewrite end_ok_lstrip_nel, IH, rstrip_eqb_empty.
  destruct (is_space c); cbn [andb]; [|reflexivity].
  destruct (all_space u) eqn:Ha; [|reflexivity].
  rewrite (lstrip_space_prefix u nel Ha). reflexivity.
Qed.

Lemma lstrip_decomp (r : string) :
  exists lead, all_space lead = true /\ r = lead ++ lstrip r.
Proof.
  induction r as [|c r IH]; [exists EmptyString; split; reflexivity|].
  cbn [lstrip]. destruct (is_space c) eqn:Hc.
  - destruct IH as [lead [Hl E]]. exists (String c lead).
    cbn [all_space append]. rewrite Hc, Hl. split; [reflexivity | rewrite <- E; reflexivity].
  - exists EmptyString. split; reflexivity.
Qed.

Lemma lstrip_empty_all_space (r : string) : lstrip r = EmptyString -> all_space r = true.
Proof.
  intro H. destruct (lstrip_decomp r) as [lead [Hl E]].
  rewrite H, str_app_nil in E. subst r. exact Hl.
Qed.

Lemma strip_end_not_nel (t : string) :
  (forall v, t <> v ++ nel) -> strip_end t = rstrip t.
Proof.
  induction t as [|c r IH]; intro H; [reflexivity|].
  assert (Hr : forall v, r <> v ++ nel).
  { intros v E. apply (H (String c v)). rewrite E. reflexivity. }
  cbn [strip_end rstrip]. rewrite (IH Hr), rstrip_eqb_empty.
  destruct (is_space c); cbn [andb]; [|reflexivity].
  destruct (end_ok (lstrip r)) eqn:He.
  - assert (El : lstrip r = EmptyString).
    { destruct (lstrip_decomp r) as [lead [Hl E]].
      destruct (lstrip r) as [|x [|y z]] eqn:Els; [reflexivity | | discriminate He].
      cbn [end_ok] in He. apply Ascii.eqb_eq in He. subst x.
      exfalso. exact (Hr lead E). }
    rewrite (lstrip_empty_all_space r El), El. reflexivity.
  - destruct (all_space r) eqn:Ha; [|reflexivity].
    rewrite (lstrip_all_space r Ha) in He. discriminate He.
Qed.

(** What the regex replacement computes, stated with [lstrip] and [rstrip]. *)
Lemma trim_spec (s : string) :
  (forall u, lstrip s = u ++ nel -> trim s = rstrip u ++ nel) /\
  ((forall u, lstrip s <> u ++ nel) -> trim s = rstrip (lstrip s)).
Proof.
  rewrite trim_strip_end. split.
  - intros u ->. apply strip_end_nel.
  - apply strip_end_not_nel.
Qed.

Lemma all_space_app (a b : string) : all_space (a ++ b) = all_space a && all_space b.
Proof.
  induction a as [|c a IH]; [reflexivity|]. cbn [append all_space].
  rewrite IH, andb_assoc. reflexivity.
Qed.

Lemma app_ends_nel (x trail u : string) :
  x ++ trail = u ++ nel -> trail = EmptyString \/ exists w, trail = w ++ nel.
Proof.
  revert u; induction x as [|c x IH]; intros u H.
  - right. exists u. exact H.
  - destruct u as [|d u].
    + cbn [append] in H. injection H as _ H.
      destruct x, trail; [left; reflexivity | discriminate H | discriminate H | discriminate H].
    + cbn [append] in H. injection H as _ H. exact (IH u H).
Qed.

Lemma last_nonspace_of (u : string) :
  (forall u' c, is_space c = true -> u <> u' ++ String c EmptyString) ->
  last_nonspace u = true.
Proof.
  induction u as [|c r IH]; intro H; [reflexivity|].
  destruct r as [|d r].
  - cbn [last_nonspace]. destruct (is_space c) eqn:Hc; [|reflexivity].
    exfalso. exact (H EmptyString c Hc eq_refl).
  - change (last_nonspace (String d r) = true). apply IH.
    intros u' c' Hc' E. apply (H (String c u') c' Hc'). rewrite E. reflexivity.
Qed.

Lemma edge_first (c : ascii) (r : string) :
  edge_nonspace (String c r) = true -> is_space c = false /\ last_nonspace (String c r) = true.
Proof.
  cbn [edge_nonspace]. intro H. apply andb_prop in H as [H1 H2].
  apply negb_true_iff in H1. split; assumption.
Qed.

(** [regexp_replace(v, "^\s+|\s+$", "")] removes the leading run of [\s]
    and the trailing one, where a trailing run may also end just before a
    final U+0085 (Java's [$] matches before a final line terminator), which
    stays: with [t] the text after its leading run, the result is [t] with
    its trailing run removed, or, when [t] ends in U+0085, [t] without that
    character, with its trailing run removed, followed by U+0085. *)
Theorem trim_java_regex (s : string) :
  (forall u, lstrip s = u ++ nel -> trim s = rstrip u ++ nel) /\
  ((forall u, lstrip s <> u ++ nel) -> trim s = rstrip (lstrip s)).
Proof. exact (trim_spec s). Qed.

Lemma trim_java_regex_witness :
  trim (" a  " ++ nel) = "a" ++ nel /\ trim (" " ++ crlf ++ "a b" ++ crlf) = "a b".
Proof.
  split.
  - apply (proj1 (trim_java_regex (" a  " ++ nel)) "a  "). reflexivity.
  - apply (proj2 (trim_java_regex (" " ++ crlf ++ "a b" ++ crlf))).
    intros u E. destruct (app_ends_nel ("a b") crlf u E) as [H | [w H]];
      [discriminate H | destruct w as [|x [|y [|z w]]]; discriminate H].
Defined.

Lemma ends_nel_dec (t : string) : (exists u, t = u ++ nel) \/ (forall u, t <> u ++ nel).
Proof.
  induction t as [|a t IHt]; [right; intros u E; destruct u; discriminate E|].
  destruct IHt as [[u E] | Hno].
  - left. exists (String a u). rewrite E. reflexivity.
  - destruct t as [|b t].
    + destruct (ascii_dec a NEL) as [-> | Ha].
      * left. exists EmptyString. reflexivity.
      * right. intros u E. destruct u as [|d [|e u]].
        -- cbn in E. injection E as E. contradiction.
        -- discriminate E.
        -- discriminate E.
    + right. intros u E. destruct u as [|d u]; [discriminate E|].
      injection E as _ E. exact (Hno u E).
Qed.

(** A text whose first and last characters are not whitespace comes back
    unchanged from any whitespace padding, unless the padding after it is
    empty and it ends in whitespace followed by U+0085 (that whitespace is
    removed). *)
Theorem trim_removes_padding (lead s trail : string)
    (Hlead : all_space lead = true) (Htrail : all_space trail = true)
    (Hs : edge_nonspace s = true)
    (Hnel : trail = EmptyString ->
            forall u c, is_space c = true -> s <> u ++ String c nel) :
  trim (lead ++ s ++ trail) = s.
Proof.
  destruct (trim_spec (lead ++ s ++ trail)) as [Hn Ho].
  rewrite (lstrip_space_prefix lead _ Hlead) in Hn, Ho.
  destruct s as [|c r].
  - cbn [append] in Ho |- *. rewrite (lstrip_all_space _ Htrail) in Ho.
    apply Ho. intros u E. destruct u; discriminate E.
  - destruct (edge_first c r Hs) as [Hc Hl].
    assert (Els : lstrip (String c r ++ trail) = String c r ++ trail)
      by (cbn [append lstrip]; rewrite Hc; reflexivity).
    rewrite Els in Hn, Ho.
    destruct (string_dec trail EmptyString) as [-> | Hne].
    + rewrite str_app_nil in Hn, Ho |- *.
      destruct (ends_nel_dec (String c r)) as [[u Eu] | Hno].
      * rewrite (Hn u Eu).
        destruct u as [|d u']; [rewrite Eu; reflexivity|].
        assert (HL : last_nonspace (String d u') = true).
        { apply last_nonspace_of. intros u'' c' Hc' E.
          apply (Hnel eq_refl u'' c' Hc'). rewrite Eu, E, <- str_app_assoc. reflexivity. }
        pose proof (rstrip_space_suffix (String d u') EmptyString ltac:(discriminate) HL
                      eq_refl) as E.
        rewrite str_app_nil in E. rewrite E, Eu. reflexivity.
      * rewrite (Ho Hno).
        pose proof (rstrip_space_suffix (String c r) EmptyString ltac:(discriminate) Hl
                      eq_refl) as E.
        rewrite str_app_nil in E. exact E.
    + rewrite Ho.
      * apply rstrip_space_suffix; [discriminate | exact Hl | exact Htrail].
      * intros u E. destruct (app_ends_nel (String c r) trail u E) as [H | [w H]];
          [contradiction|].
        rewrite H, all_space_app in Htrail. apply andb_prop in Htrail as [_ Hn'].
        cbv in Hn'. discriminate Hn'.
Qed.

Lemma trim_removes_padding_witness :
  trim (" " ++ crlf ++ "a b" ++ crlf) = "a b".
Proof.
  apply (trim_removes_padding (" " ++ crlf) "a b" crlf eq_refl eq_refl eq_refl).
  intro H. discriminate H.
Defined.
